(** * shuttle/dns: the resolution chain, its server-address parser and its
      race resolver, embedded from [src/dns/dns.go].

    Layout of the development:
    - [strings], [strconv], [net], [url]: the fragments of Go's standard
      library that [dns.go] calls, modelled from the library's documented
      behaviour (Go 1.21);
    - [miekg]: the part of the DNS message type that [ResolveDomain] reads;
    - the package itself: [DnsServer], [ParseDnsServer], [ResolveDomain],
      the handlers and [ApplyConfig];
    - the properties. *)

From Stdlib Require Import ZArith List Bool String Ascii Lia.
Import ListNotations.
Local Open Scope string_scope.
Local Open Scope Z_scope.

(** ** Bytes *)

(** A Go string is a sequence of bytes; [ascii] is an eight-bit byte. *)
Definition byteVal (c : ascii) : Z := Z.of_N (N_of_ascii c).
Definition byteOf (z : Z) : ascii := ascii_of_N (Z.to_N z).

Definition inRange (lo hi c : ascii) : bool :=
  (byteVal lo <=? byteVal c) && (byteVal c <=? byteVal hi).

Definition isDigit (c : ascii) : bool := inRange "0" "9" c.
Definition isLower (c : ascii) : bool := inRange "a" "z" c.
Definition isUpper (c : ascii) : bool := inRange "A" "Z" c.
Definition isAlpha (c : ascii) : bool := isLower c || isUpper c.
Definition isAlnum (c : ascii) : bool := isAlpha c || isDigit c.

(** [c - '0'] for a decimal digit. *)
Definition digitVal (c : ascii) : Z := byteVal c - 48.

(** [oneOf set c]: the byte [c] occurs in [set]. *)
Fixpoint oneOf (set : string) (c : ascii) : bool :=
  match set with
  | EmptyString => false
  | String x rest => Ascii.eqb c x || oneOf rest c
  end.

(** ** Package strings *)
Module strings.

(** [s[:n]] and [s[n:]], for [n] within bounds. *)
Fixpoint take (n : nat) (s : string) : string :=
  match n, s with
  | S k, String c rest => String c (take k rest)
  | _, _ => EmptyString
  end.

Fixpoint drop (n : nat) (s : string) : string :=
  match n, s with
  | S k, String _ rest => drop k rest
  | _, _ => s
  end.

Fixpoint HasPrefix (s prefix : string) {struct prefix} : bool :=
  match prefix, s with
  | EmptyString, _ => true
  | String p ps, String c cs => Ascii.eqb c p && HasPrefix cs ps
  | String _ _, EmptyString => false
  end.

(** [len(s) >= len(suffix) && s[len(s)-len(suffix):] == suffix] *)
Definition HasSuffix (s suffix : string) : bool :=
  (String.length suffix <=? String.length s)%nat
  && String.eqb (drop (String.length s - String.length suffix) s) suffix.

(** Index of the first instance of [substr] in [s], or -1. *)
Fixpoint Index (s substr : string) : Z :=
  if HasPrefix s substr then 0
  else match s with
       | EmptyString => -1
       | String _ rest =>
           let k := Index rest substr in
           if k <? 0 then -1 else k + 1
       end.

(** Position of the first / last occurrence of a byte. *)
Fixpoint IndexByte (s : string) (c : ascii) : option nat :=
  match s with
  | EmptyString => None
  | String x rest =>
      if Ascii.eqb x c then Some O
      else option_map S (IndexByte rest c)
  end.

Fixpoint LastIndexByte (s : string) (c : ascii) : option nat :=
  match s with
  | EmptyString => None
  | String x rest =>
      match LastIndexByte rest c with
      | Some k => Some (S k)
      | None => if Ascii.eqb x c then Some O else None
      end
  end.

(** [Cut(s, sep)] for a one-byte separator: the text before and after
    the first [sep]; the whole of [s] and the empty string when [sep]
    does not occur. *)
Definition Cut (s : string) (sep : ascii) : string * string :=
  match IndexByte s sep with
  | Some k => (take k s, drop (S k) s)
  | None => (s, EmptyString)
  end.

Definition lowerByte (c : ascii) : ascii :=
  if isUpper c then byteOf (byteVal c + 32) else c.

(** [ToLower] on a string of ASCII bytes, the only use made of it. *)
Fixpoint ToLower (s : string) : string :=
  match s with
  | EmptyString => EmptyString
  | String c rest => String (lowerByte c) (ToLower rest)
  end.

(** [sep]-separated concatenation. *)
Fixpoint Join (elems : list string) (sep : string) : string :=
  match elems with
  | [] => EmptyString
  | [x] => x
  | x :: rest => x ++ sep ++ Join rest sep
  end.

End strings.

(** ** Package strconv *)
Module strconv.

Definition maxInt : Z := 9223372036854775807.
Definition minInt : Z := -9223372036854775808.

Definition digitChar (d : Z) : ascii := byteOf (48 + d).

(** Decimal digits of a non-negative number, most significant first.
    The fuel bounds the number of digits; twenty suffice for 64 bits. *)
Fixpoint digits (fuel : nat) (n : Z) (acc : string) : string :=
  match fuel with
  | O => acc
  | S f =>
      let acc' := String (digitChar (n mod 10)) acc in
      if n <? 10 then acc' else digits f (n / 10) acc'
  end.

Definition FormatUint (n : Z) : string := digits 20 n EmptyString.

Definition Itoa (n : Z) : string :=
  if n <? 0 then String "-" (FormatUint (- n)) else FormatUint n.

(** Value of a string of decimal digits, [None] on any other byte. *)
Fixpoint digitsValue (s : string) (acc : Z) : option Z :=
  match s with
  | EmptyString => Some acc
  | String c rest =>
      if isDigit c then digitsValue rest (acc * 10 + digitVal c) else None
  end.

Inductive NumError := ErrSyntax | ErrRange.

(** [Atoi]: an optional sign, at least one decimal digit, nothing else;
    the value must fit the 64-bit [int]. *)
Definition Atoi (s : string) : Z + NumError :=
  let '(neg, body) :=
    match s with
    | String "-" rest => (true, rest)
    | String "+" rest => (false, rest)
    | _ => (false, s)
    end in
  match body with
  | EmptyString => inr ErrSyntax
  | _ =>
      match digitsValue body 0 with
      | None => inr ErrSyntax
      | Some v =>
          let n := if neg then - v else v in
          if (minInt <=? n) && (n <=? maxInt) then inl n else inr ErrRange
      end
  end.

End strconv.

(** ** Package net *)
Module net.

Local Open Scope list_scope.

(** [net.IP] is a byte slice; the nil slice is the empty list. *)
Definition IP := list Z.

Definition isHex (c : ascii) : bool :=
  isDigit c || inRange "a" "f" c || inRange "A" "F" c.

Definition hexVal (c : ascii) : Z :=
  if isDigit c then byteVal c - 48
  else if inRange "a" "f" c then byteVal c - 97 + 10
  else byteVal c - 65 + 10.

(** *** Parsing *)

(** The loop of [parseIPv4].  [fields] are the octets closed so far,
    [val] and [digLen] the value and number of digits of the octet being
    read.  [digLen = 0] is the loop's test [i == 0 || s[i-1] == '.'], and
    an empty rest after a dot is its test [i == len(s)-1]. *)
Fixpoint parseIPv4Loop (s : string) (fields : list Z) (val : Z)
         (digLen : nat) : option (list Z) :=
  match s with
  | EmptyString =>
      if (List.length fields <? 3)%nat then None
      else Some (fields ++ [val])
  | String c rest =>
      if isDigit c then
        if (digLen =? 1)%nat && (val =? 0) then None
        else
          let val' := val * 10 + digitVal c in
          if val' >? 255 then None
          else parseIPv4Loop rest fields val' (S digLen)
      else if Ascii.eqb c "." then
        if (digLen =? 0)%nat then None
        else match rest with
             | EmptyString => None
             | _ =>
                 if (List.length fields =? 3)%nat then None
                 else parseIPv4Loop rest (fields ++ [val]) 0 O
             end
      else None
  end.

Definition parseIPv4 (s : string) : option (list Z) :=
  parseIPv4Loop s [] 0 O.

(** A run of one to four hex digits at the head of [s]: its value and
    what follows.  [None] when there is no digit or more than four. *)
Fixpoint hexRun (s : string) (acc : Z) (off : nat) : Z * nat * string :=
  match s with
  | String c rest =>
      if isHex c then hexRun rest (acc * 16 + hexVal c) (S off)
      else (acc, off, s)
  | EmptyString => (acc, off, s)
  end.

Definition hexField (s : string) : option (Z * string) :=
  let '(acc, off, rest) := hexRun s 0 O in
  if (off =? 0)%nat then None
  else if (4 <? off)%nat then None
  else Some (acc, rest).

Definition v4InV6Prefix : list Z := [0;0;0;0;0;0;0;0;0;0;255;255].

(** The main loop of [parseIPv6].  [ip] holds the bytes written so far
    (so [i = len ip]), [ellipsis] the byte position of "::" when one was
    seen.  The result is the bytes, the ellipsis and the unread text. *)
Fixpoint parseIPv6Loop (fuel : nat) (s : string) (ip : list Z)
         (ellipsis : option nat) : option (list Z * option nat * string) :=
  match fuel with
  | O => Some (ip, ellipsis, s)
  | S fuel' =>
      if (16 <=? List.length ip)%nat then Some (ip, ellipsis, s)
      else
        match hexField s with
        | None => None
        | Some (acc, rest) =>
            let ip' := ip ++ [Z.shiftr acc 8; Z.land acc 255] in
            match rest with
            | EmptyString => Some (ip', ellipsis, EmptyString)
            | String c rest1 =>
                if Ascii.eqb c "." then
                  (* a trailing dotted quad, read from the start of the
                     field *)
                  if (match ellipsis with None => true | Some _ => false end
                      && negb (List.length ip =? 12)%nat)
                     || (16 <? List.length ip + 4)%nat
                  then None
                  else match parseIPv4 s with
                       | Some q => Some (ip ++ q, ellipsis, EmptyString)
                       | None => None
                       end
                else if negb (Ascii.eqb c ":") then None
                else
                  match rest1 with
                  | EmptyString => None
                  | String c2 rest2 =>
                      if Ascii.eqb c2 ":" then
                        match ellipsis with
                        | Some _ => None
                        | None =>
                            let e := Some (List.length ip') in
                            match rest2 with
                            | EmptyString => Some (ip', e, EmptyString)
                            | _ => parseIPv6Loop fuel' rest2 ip' e
                            end
                        end
                      else parseIPv6Loop fuel' rest1 ip' ellipsis
                  end
            end
        end
  end.

Definition zeros (n : nat) : list Z := List.repeat 0 n.

(** After the loop: the whole text must be read, and a short address is
    completed with zeros at the ellipsis. *)
Definition expandEllipsis (r : option (list Z * option nat * string))
  : option (list Z) :=
  match r with
  | None => None
  | Some (ip, ellipsis, rest) =>
      if negb (String.eqb rest EmptyString) then None
      else if (List.length ip <? 16)%nat then
        match ellipsis with
        | None => None
        | Some e =>
            Some (firstn e ip ++ zeros (16 - List.length ip) ++ skipn e ip)
        end
      else match ellipsis with
           | Some _ => None
           | None => Some ip
           end
  end.

(** [parseIPv6] without the zone. *)
Definition parseIPv6NoZone (s : string) : option (list Z) :=
  if strings.HasPrefix s "::" then
    match strings.drop 2 s with
    | EmptyString => Some (zeros 16)
    | rest => expandEllipsis (parseIPv6Loop 8 rest [] (Some O))
    end
  else expandEllipsis (parseIPv6Loop 8 s [] None).

Definition parseIPv6 (s0 : string) : option (list Z) :=
  (* the zone: everything after the first '%' *)
  match strings.IndexByte s0 "%" with
  | Some k =>
      if String.eqb (strings.drop (S k) s0) EmptyString then None
      else
        (* an address that parses with its zone is refused by [ParseIP] *)
        match parseIPv6NoZone (strings.take k s0) with
        | Some _ => None
        | None => None
        end
  | None => parseIPv6NoZone s0
  end.

(** [netip.ParseAddr]: the first of '.', ':' and '%' selects the parser. *)
Fixpoint parseAddr (whole s : string) : option (list Z) :=
  match s with
  | EmptyString => None
  | String c rest =>
      if Ascii.eqb c "." then
        option_map (fun q => v4InV6Prefix ++ q) (parseIPv4 whole)
      else if Ascii.eqb c ":" then parseIPv6 whole
      else if Ascii.eqb c "%" then None
      else parseAddr whole rest
  end.

(** [ParseIP] returns the 16-byte form, or nil. *)
Definition ParseIP (s : string) : IP :=
  match parseAddr s s with
  | Some ip => ip
  | None => []
  end.

(** *** Printing *)

Definition hexDigit (d : Z) : ascii :=
  if d <? 10 then byteOf (48 + d) else byteOf (97 + d - 10).

Fixpoint hexDigits (fuel : nat) (n : Z) (acc : string) : string :=
  match fuel with
  | O => acc
  | S f =>
      let acc' := String (hexDigit (n mod 16)) acc in
      if n <? 16 then acc' else hexDigits f (n / 16) acc'
  end.

(** [appendHex]: lower case, no leading zeros. *)
Definition appendHex (n : Z) : string := hexDigits 4 n EmptyString.

Fixpoint groups (ip : list Z) : list Z :=
  match ip with
  | hi :: lo :: rest => (hi * 256 + lo) :: groups rest
  | _ => []
  end.

Fixpoint zeroRunLen (gs : list Z) : nat :=
  match gs with
  | g :: rest => if g =? 0 then S (zeroRunLen rest) else O
  | [] => O
  end.

(** First longest run of at least two zero groups, as [start, end). *)
Fixpoint longestRun (i : nat) (gs : list Z) (best : option (nat * nat))
  : option (nat * nat) :=
  match gs with
  | [] => best
  | _ :: rest =>
      let l := zeroRunLen gs in
      let width := match best with
                   | Some (a, b) => (b - a)%nat
                   | None => O
                   end in
      let best' := if (2 <=? l)%nat && (width <? l)%nat
                   then Some (i, (i + l)%nat) else best in
      longestRun (S i) rest best'
  end.

(** The groups in hex, ':' between them, "::" in place of the run. *)
Definition formatGroups (gs : list Z) : string :=
  match longestRun O gs None with
  | None => strings.Join (map appendHex gs) ":"
  | Some (a, b) =>
      (strings.Join (map appendHex (firstn a gs)) ":" ++ "::"
         ++ strings.Join (map appendHex (skipn b gs)) ":")%string
  end.

Definition string6 (ip : list Z) : string := formatGroups (groups ip).

Definition string4 (q : list Z) : string :=
  strings.Join (map strconv.FormatUint q) ".".

(** [To4]: the four-byte form of an IPv4 address, nil otherwise. *)
Definition To4 (ip : IP) : IP :=
  if (List.length ip =? 4)%nat then ip
  else if (List.length ip =? 16)%nat
          && forallb (Z.eqb 0) (firstn 10 ip)
          && (nth 10 ip 0 =? 255) && (nth 11 ip 0 =? 255)
       then skipn 12 ip
       else [].

Definition hexByte (b : Z) : string :=
  String (hexDigit (b / 16)) (String (hexDigit (b mod 16)) EmptyString).

Definition IPString (ip : IP) : string :=
  if (List.length ip =? 0)%nat then "<nil>"
  else if negb ((List.length ip =? 4)%nat || (List.length ip =? 16)%nat)
  then String "?" (String.concat EmptyString (map hexByte ip))
  else match To4 ip with
       | (_ :: _) as q => string4 q
       | [] => string6 ip
       end.

Definition JoinHostPort (host port : string) : string :=
  match strings.IndexByte host ":" with
  | Some _ => ("[" ++ host ++ "]:" ++ port)%string
  | None => (host ++ ":" ++ port)%string
  end.

End net.

(** ** Package net/url *)
Module url.

(** The fields of [URL] that this package reads.  The other fields
    (user, path, query, fragment) only matter through the errors their
    parsing can raise, which [Parse] keeps. *)
Record URL := mkURL { Scheme : string; Host : string }.

Inductive Error :=
| ErrControlCharacter
| ErrMissingScheme
| ErrFirstSegmentColon
| ErrMissingBracket
| ErrInvalidPort (colonPort : string)
| ErrInvalidUserinfo
| ErrEscape (* an EscapeError or an InvalidHostError of [unescape] *).

Fixpoint stringContainsCTLByte (s : string) : bool :=
  match s with
  | EmptyString => false
  | String c rest =>
      (byteVal c <? 32) || (byteVal c =? 127) || stringContainsCTLByte rest
  end.

Inductive SchemeScan :=
| NoScheme
| MissingScheme
| HasScheme (scheme rest : string).

(** [getScheme]: letters, then letters, digits, '+', '-' and '.', up to
    the first ':'.  [first] holds at index 0. *)
Fixpoint scanScheme (first : bool) (s : string) : SchemeScan :=
  match s with
  | EmptyString => NoScheme
  | String c rest =>
      let continue :=
        match scanScheme false rest with
        | HasScheme sc r => HasScheme (String c sc) r
        | other => other
        end in
      if isAlpha c then continue
      else if isDigit c || oneOf "+-." c then
        if first then NoScheme else continue
      else if Ascii.eqb c ":" then
        if first then MissingScheme else HasScheme EmptyString rest
      else NoScheme
  end.

Definition validOptionalPort (port : string) : bool :=
  match port with
  | EmptyString => true
  | String c rest =>
      Ascii.eqb c ":"
      && (fix allDigits (s : string) : bool :=
            match s with
            | EmptyString => true
            | String d r => isDigit d && allDigits r
            end) rest
  end.

(** [shouldEscape(c, encodeHost)] *)
Definition shouldEscapeHost (c : ascii) : bool :=
  negb (isAlnum c
        || oneOf "!$&'()*+,;=:[]<>" c || Ascii.eqb c (byteOf 34)
        || oneOf "-_.~" c).

Inductive encoding := encodeHost | encodeZone | encodeOther.

Definition isHostMode (m : encoding) : bool :=
  match m with encodeHost => true | _ => false end.
Definition isZoneMode (m : encoding) : bool :=
  match m with encodeZone => true | _ => false end.

(** [unescape]: the checks of its first pass and the decoding of its
    second, in one traversal.  [encodeOther] stands for the modes of the
    user, path and fragment parts, which only check the escapes. *)
Fixpoint unescape (mode : encoding) (s : string) : option string :=
  match s with
  | EmptyString => Some EmptyString
  | String c rest =>
      if Ascii.eqb c "%" then
        match rest with
        | String a (String b rest') =>
            if negb (net.isHex a && net.isHex b) then None
            else
              let is25 := Ascii.eqb a "2" && Ascii.eqb b "5" in
              let v := net.hexVal a * 16 + net.hexVal b in
              if isHostMode mode && (net.hexVal a <? 8) && negb is25
              then None
              else if isZoneMode mode && negb is25 && negb (v =? 32)
                      && shouldEscapeHost (byteOf v)
              then None
              else option_map (String (byteOf v)) (unescape mode rest')
        | _ => None
        end
      else if (isHostMode mode || isZoneMode mode)
              && (byteVal c <? 128) && shouldEscapeHost c
      then None
      else option_map (String c) (unescape mode rest)
  end.

Definition parseHost (host : string) : string + Error :=
  let plain (h : string) :=
    match unescape encodeHost h with
    | Some h' => inl h'
    | None => inr ErrEscape
    end in
  if strings.HasPrefix host "[" then
    match strings.LastIndexByte host "]" with
    | None => inr ErrMissingBracket
    | Some i =>
        let colonPort := strings.drop (S i) host in
        if negb (validOptionalPort colonPort) then
          inr (ErrInvalidPort colonPort)
        else
          let zone := strings.Index (strings.take i host) "%25" in
          if 0 <=? zone then
            let z := Z.to_nat zone in
            match unescape encodeHost (strings.take z host),
                  unescape encodeZone
                    (strings.drop z (strings.take i host)),
                  unescape encodeHost (strings.drop i host) with
            | Some h1, Some h2, Some h3 => inl (h1 ++ h2 ++ h3)
            | _, _, _ => inr ErrEscape
            end
          else plain host
    end
  else
    match strings.LastIndexByte host ":" with
    | Some i =>
        let colonPort := strings.drop i host in
        if negb (validOptionalPort colonPort) then
          inr (ErrInvalidPort colonPort)
        else plain host
    | None => plain host
    end.

Fixpoint validUserinfo (s : string) : bool :=
  match s with
  | EmptyString => true
  | String c rest =>
      (isAlnum c || oneOf "-._:~!$&'()*+,;=%@" c) && validUserinfo rest
  end.

Definition isSome {A} (o : option A) : bool :=
  match o with Some _ => true | None => false end.

Definition parseAuthority (authority : string) : string + Error :=
  match strings.LastIndexByte authority "@" with
  | None => parseHost authority
  | Some i =>
      match parseHost (strings.drop (S i) authority) with
      | inr e => inr e
      | inl host =>
          let userinfo := strings.take i authority in
          if negb (validUserinfo userinfo) then inr ErrInvalidUserinfo
          else
            let '(username, password) := strings.Cut userinfo ":" in
            if isSome (unescape encodeOther username)
               && isSome (unescape encodeOther password)
            then inl host else inr ErrEscape
      end
  end.

(** [parse(rawURL, false)] *)
Definition parse (rawURL : string) : URL + Error :=
  if stringContainsCTLByte rawURL then inr ErrControlCharacter
  else if String.eqb rawURL "*" then inl (mkURL EmptyString EmptyString)
  else
    match scanScheme true rawURL with
    | MissingScheme => inr ErrMissingScheme
    | scan =>
        let '(scheme, rest) :=
          match scan with
          | HasScheme sc r => (strings.ToLower sc, r)
          | _ => (EmptyString, rawURL)
          end in
        (* the query, from the first '?', is split off *)
        let rest := fst (strings.Cut rest "?") in
        let noScheme := String.eqb scheme EmptyString in
        if negb (strings.HasPrefix rest "/") && negb noScheme then
          (* a rootless path is opaque *)
          inl (mkURL scheme EmptyString)
        else if negb (strings.HasPrefix rest "/")
                && isSome (strings.IndexByte
                             (fst (strings.Cut rest "/")) ":")
        then inr ErrFirstSegmentColon
        else
          let setPath (host path : string) :=
            if isSome (unescape encodeOther path)
            then inl (mkURL scheme host) else inr ErrEscape in
          if (negb noScheme || negb (strings.HasPrefix rest "///"))
             && strings.HasPrefix rest "//"
          then
            let after := strings.drop 2 rest in
            let '(authority, path) :=
              match strings.IndexByte after "/" with
              | Some i => (strings.take i after, strings.drop i after)
              | None => (after, EmptyString)
              end in
            match parseAuthority authority with
            | inr e => inr e
            | inl host => setPath host path
            end
          else setPath EmptyString rest
    end.

Definition Parse (rawURL : string) : URL + Error :=
  let '(u, frag) := strings.Cut rawURL "#" in
  match parse u with
  | inr e => inr e
  | inl url =>
      if isSome (unescape encodeOther frag) then inl url else inr ErrEscape
  end.

Definition splitHostPort (hostPort : string) : string * string :=
  let '(host, port) :=
    match strings.LastIndexByte hostPort ":" with
    | Some colon =>
        if validOptionalPort (strings.drop colon hostPort)
        then (strings.take colon hostPort, strings.drop (S colon) hostPort)
        else (hostPort, EmptyString)
    | None => (hostPort, EmptyString)
    end in
  if strings.HasPrefix host "[" && strings.HasSuffix host "]"
  then (strings.take (String.length host - 2) (strings.drop 1 host), port)
  else (host, port).

Definition Hostname (u : URL) : string := fst (splitHostPort (Host u)).
Definition Port (u : URL) : string := snd (splitHostPort (Host u)).

End url.

(** ** Package github.com/miekg/dns: what [ResolveDomain] reads *)
Module miekg.

(** A resource record: an address record, or one of another type. *)
Inductive RR :=
| A (a : net.IP)
| Other (rrtype : Z).

Record Msg := mkMsg { Answer : list RR }.

(** What [dns.Exchange(m, addr)] returns: [(r *Msg, err error)].  The
    library returns a nil message when it could not dial, write or read
    (timeouts, unreachable servers), and a non-nil, possibly partial one
    together with an error when the reply did not unpack or carried
    another id. *)
Record Reply := mkReply { r : option Msg; err : option string }.

End miekg.

(** ** Package dns *)

Definition TypSystem : string := "system".
Definition TypStatic : string := "static".
Definition TypDynamic : string := "dynamic".

Inductive error :=
| ErrURL (e : url.Error)
  (* "[DNS.Servers] [%s] not support [%s]" *)
| ErrNotSupport (value scheme : string)
  (* "[DNS.Servers] [%s] [%s] ip invalid" *)
| ErrIPInvalid (value hostname : string)
  (* "[DNS.Servers] [%s] [%s] port invalid" *)
| ErrPortInvalid (value port : string)
  (* "DNS.Mapping[domain:%s, server:%v, ip:%v], server and ip is empty" *)
| ErrMappingEmpty (domain : string) (servers ips : list string)
  (* "DNS.Mapping[domain:%s, server:%v, ip:%v], ip[%s] invalid" *)
| ErrMappingIP (domain : string) (servers ips : list string) (v : string)
  (* "[ResolveDomain] context was canceled" *)
| ErrCanceled
  (* an error of a collaborator (geolocation, cache) *)
| ErrOther (msg : string).

Inductive result (A : Type) :=
| Ok (a : A)
| Err (e : error).
Arguments Ok {A} a.
Arguments Err {A} e.

Module DnsServer.
Record t := mk { Network : string; IP : net.IP; Port : Z }.

(** The zero value [DnsServer{}]. *)
Definition zero : t := mk EmptyString [] 0.

Definition Addr (d : t) : string :=
  net.JoinHostPort (net.IPString (IP d)) (strconv.Itoa (Port d)).

(** [fmt.Sprintf("%s://%s", d.Network, d.Addr())] *)
Definition String (d : t) : string := Network d ++ "://" ++ Addr d.
End DnsServer.

(** The first statement of [ParseDnsServer]: a value without "://" gets
    the scheme "udp". *)
Definition withScheme (value : string) : string :=
  if strings.Index value "://" <? 0 then "udp://" ++ value else value.

Definition ParseDnsServer (value : string) : result DnsServer.t :=
  let value := withScheme value in
  match url.Parse value with
  | inr e => Err (ErrURL e)
  | inl u =>
      if negb (String.eqb (url.Scheme u) "udp") then
        Err (ErrNotSupport value (url.Scheme u))
      else
        let ip := net.ParseIP (url.Hostname u) in
        if (List.length ip =? 0)%nat then
          Err (ErrIPInvalid value (url.Hostname u))
        else if (String.length (url.Port u) =? 0)%nat then
          Ok (DnsServer.mk (url.Scheme u) ip 53)
        else
          match strconv.Atoi (url.Port u) with
          | inl port => Ok (DnsServer.mk (url.Scheme u) ip port)
          | inr _ => Err (ErrPortInvalid value (url.Port u))
          end
  end.

Module DNS.
Record t := mk {
  Typ : string;
  MappingDomain : string;
  Domain : string;
  IP : list net.IP;
  Server : list DnsServer.t;
  CurrentServer : DnsServer.t;
  CurrentIP : net.IP;
  CurrentCountry : string;
  ExpireAt : Z
}.

Definition IsNil (d : t) : bool := (String.length (Domain d) =? 0)%nat.
End DNS.

(** *** Effects

    A handler runs against an environment and leaves a trace.  It may
    return, panic (a Go run-time panic, which ends the process when it
    happens in a goroutine) or block for ever. *)

Inductive Panic :=
| NilDereference      (* reading a field through a nil pointer *)
| IndexOutOfRange     (* indexing past the end of a string or slice *)
| NilFuncCall         (* calling a nil func value *)
| Foreign (why : string).

Inductive Outcome (A : Type) :=
| Returned (a : A)
| Panicked (why : Panic)
| Blocked.
Arguments Returned {A} a.
Arguments Panicked {A} why.
Arguments Blocked {A}.

Inductive Event :=
  (* a goroutine calls [dns.Exchange] for [domain] against [addr] *)
| EvExchange (addr domain : string)
  (* an entry written through logrus *)
| EvLog (msg domain : string)
  (* an effect of a collaborator *)
| EvForeign (what : string).

(** The environment of one query: what each server answers, and the order
    in which the goroutines of a race reach the end of their exchange
    (positions in the server list; positions past its end are ignored). *)
Record Env := mkEnv {
  Exchange : string -> string -> miekg.Reply;
  arrival : list nat
}.

(** The request scope.  Only its [Done] channel is read: [doneAfter] is
    the number of attempts that complete before it is closed, [None] for a
    scope that is never cancelled. *)
Record Context := mkContext { doneAfter : option nat }.

Definition Eff (A : Type) : Type := Env -> list Event * Outcome A.

Definition ret {A} (a : A) : Eff A := fun _ => ([], Returned a).

Definition bind {A B} (m : Eff A) (k : A -> Eff B) : Eff B :=
  fun env =>
    match m env with
    | (t, Returned a) => let '(t', o) := k a env in ((t ++ t')%list, o)
    | (t, Panicked why) => (t, Panicked why)
    | (t, Blocked) => (t, Blocked)
    end.

Definition emit (e : Event) : Eff unit := fun _ => ([e], Returned tt).
Definition panic {A} (why : Panic) : Eff A := fun _ => ([], Panicked why).

Notation "x <- m ;; k" := (bind m (fun x => k))
  (at level 61, m at next level, right associativity).
Notation "m ;;; k" := (bind m (fun _ => k))
  (at level 61, right associativity).

(** [Handle]: a Go func value; [None] is the nil func, and the result
    [*DNS] may be nil as well. *)
Definition HandleFn : Type := Context -> string -> Eff (option DNS.t).
Definition Handle : Type := option HandleFn.

Definition call (h : Handle) (ctx : Context) (domain : string)
  : Eff (option DNS.t) :=
  match h with
  | Some f => f ctx domain
  | None => panic NilFuncCall
  end.

(** *** ResolveDomain *)

(** The loop over [r.Answer]: the addresses of the A records. *)
Fixpoint answerIPs (answer : list miekg.RR) : list net.IP :=
  match answer with
  | [] => []
  | miekg.A a :: rest => a :: answerIPs rest
  | miekg.Other _ :: rest => answerIPs rest
  end.

(** What one goroutine of the race does once its exchange is over: it
    sends a [_reply] on the channel, or panics. *)
Inductive Attempt :=
| Sends (ips : list net.IP) (server : DnsServer.t)
| Panics (why : Panic).

(** The body of the goroutine.  The error of the exchange is only attached
    to a log entry that is never written; [r.Answer] is read whatever the
    error, through a nil [r] when the library returned none. *)
Definition attempt (env : Env) (domain : string) (s : DnsServer.t)
  : Attempt :=
  let reply := Exchange env (DnsServer.Addr s) domain in
  match miekg.r reply with
  | None => Panics NilDereference
  | Some r => Sends (answerIPs (miekg.Answer r)) s
  end.

(** The first goroutine to finish, among those started. *)
Definition firstArrival (n : nat) (order : list nat) : option nat :=
  List.find (fun i => (i <? n)%nat) order.

(** The [select]: the first of the two cases to become ready decides. *)
Definition ResolveDomain (ctx : Context) (domain : string)
           (servers : list DnsServer.t)
  : Eff (list net.IP * DnsServer.t * option error) :=
  fun env =>
    (map (fun s => EvExchange (DnsServer.Addr s) domain) servers,
     let cancelled := Returned ([], DnsServer.zero, Some ErrCanceled) in
     match doneAfter ctx, firstArrival (List.length servers) (arrival env) with
     | Some O, _ => cancelled
     | _, Some i =>
         match nth_error servers i with
         | Some s =>
             match attempt env domain s with
             | Sends ips server => Returned (ips, server, None)
             | Panics why => Panicked why
             end
         | None => Blocked
         end
     | Some (S _), None => cancelled
     | None, None => Blocked
     end).

(** The default address selection; the variable can be reassigned. *)
Definition SelectIP (ips : list net.IP) : net.IP :=
  match ips with
  | ip :: _ => ip
  | [] => []
  end.

Module model.
(** An entry of [config.DNS.Mapping]. *)
Record MappingRule := mkRule {
  Domain : string;
  IP : list string;
  Server : list string
}.

(** [config.DNS].  [IncludeSystem] is read by [ApplyConfig] but guards
    an empty block. *)
Record DNSConfig := mkDNS {
  IncludeSystem : bool;
  Servers : list string;
  Mapping : list MappingRule
}.

Record Config := mkConfig { DNS : DNSConfig }.
End model.

(** The loops [for i, v := range servers { serverAddrs[i], err =
    ParseDnsServer(v) ... }]: they stop at the first error. *)
Fixpoint parseServers (servers : list string) : result (list DnsServer.t) :=
  match servers with
  | [] => Ok []
  | v :: rest =>
      match ParseDnsServer v with
      | Err e => Err e
      | Ok s =>
          match parseServers rest with
          | Err e => Err e
          | Ok ss => Ok (s :: ss)
          end
      end
  end.

(** The test at the head of both mapping handlers,
    [mappingDomain[0] == '*' && strings.HasSuffix(domain, mappingDomain[1:])
     || mappingDomain == domain]; [None] when [mappingDomain[0]] is out of
    range. *)
Definition matchRule (mappingDomain domain : string) : option bool :=
  match mappingDomain with
  | EmptyString => None
  | String c tail =>
      Some ((Ascii.eqb c "*" && strings.HasSuffix domain tail)
            || String.eqb mappingDomain domain)
  end.

Section Handlers.

(** Collaborators that live in other files of the package: the
    geolocation lookup and initialisation, the cache layer, and the
    current value of the [SelectIP] variable. *)
Variable GeoLookUp : net.IP -> string.
Variable InitGeoIP : option error.
Variable newCacheHandle : Handle -> Handle * option error.
Variable selectIP : list net.IP -> net.IP.

Definition generalHandler (serverAddrs : list DnsServer.t) (next : Handle)
  : HandleFn :=
  fun ctx domain =>
    res <- ResolveDomain ctx domain serverAddrs ;;
    let '(ips, server, err) := res in
    let reply :=
      DNS.mk TypDynamic EmptyString domain ips [] server
             (selectIP ips) (GeoLookUp (selectIP ips)) 0 in
    match err with
    | Some _ =>
        emit (EvLog "lookup ip failed" domain) ;;;
        call next ctx domain ;;;
        ret (Some reply)
    | None => ret (Some reply)
    end.

Definition newGeneralHandle (servers : list string) (next : Handle)
  : Handle * option error :=
  match parseServers servers with
  | Err e => (None, Some e)
  | Ok serverAddrs => (Some (generalHandler serverAddrs next), None)
  end.

Definition serverMappingHandler (mappingDomain : string)
           (serverAddrs : list DnsServer.t) (next : Handle) : HandleFn :=
  fun ctx domain =>
    match matchRule mappingDomain domain with
    | None => panic IndexOutOfRange
    | Some false => call next ctx domain
    | Some true =>
        res <- ResolveDomain ctx domain serverAddrs ;;
        let '(ips, server, err) := res in
        let reply :=
          DNS.mk TypStatic mappingDomain domain ips serverAddrs server
                 [] EmptyString 0 in
        match err with
        | Some _ =>
            emit (EvLog "lookup ip failed" domain) ;;; ret (Some reply)
        | None => ret (Some reply)
        end
    end.

Definition staticMappingHandler (mappingDomain : string)
           (netIP : list net.IP) (next : Handle) : HandleFn :=
  fun ctx domain =>
    match matchRule mappingDomain domain with
    | None => panic IndexOutOfRange
    | Some false => call next ctx domain
    | Some true =>
        match netIP with
        | [] => panic IndexOutOfRange
        | ip0 :: _ =>
            ret (Some (DNS.mk TypStatic mappingDomain domain netIP []
                              DnsServer.zero ip0 (GeoLookUp ip0) 0))
        end
    end.

(** The loop over [ips] of the static branch. *)
Fixpoint parseIPs (mappingDomain : string) (servers ips : list string)
         (todo : list string) : result (list net.IP) :=
  match todo with
  | [] => Ok []
  | v :: rest =>
      let ip := net.ParseIP v in
      if (List.length ip =? 0)%nat then
        Err (ErrMappingIP mappingDomain servers ips v)
      else
        match parseIPs mappingDomain servers ips rest with
        | Err e => Err e
        | Ok l => Ok (ip :: l)
        end
  end.

Definition newMappingHandle (mappingDomain : string)
           (servers ips : list string) (next : Handle)
  : Handle * option error :=
  if (List.length servers =? 0)%nat && (List.length ips =? 0)%nat then
    (None, Some (ErrMappingEmpty mappingDomain servers ips))
  else if (0 <? List.length servers)%nat then
    match parseServers servers with
    | Err e => (None, Some e)
    | Ok serverAddrs =>
        (Some (serverMappingHandler mappingDomain serverAddrs next), None)
    end
  else
    match parseIPs mappingDomain servers ips ips with
    | Err e => (None, Some e)
    | Ok netIP =>
        (Some (staticMappingHandler mappingDomain netIP next), None)
    end.

(** The loop of [ApplyConfig], from the last rule to the first: the
    handler of a rule wraps the handlers of the rules after it. *)
Fixpoint applyMappings (rules : list model.MappingRule) (handle : Handle)
  : Handle * option error :=
  match rules with
  | [] => (handle, None)
  | v :: later =>
      match applyMappings later handle with
      | (h, Some e) => (h, Some e)
      | (h, None) =>
          newMappingHandle (model.Domain v) (model.IP v) (model.Server v) h
      end
  end.

Definition ApplyConfig (config : model.Config) (fallback : Handle)
  : Handle * option error :=
  match InitGeoIP with
  | Some e => (None, Some e)
  | None =>
      let servers := model.Servers (model.DNS config) in
      let handle := fallback in
      let handle := fst (newGeneralHandle servers handle) in
      let handle := fst (newCacheHandle handle) in
      applyMappings (model.Mapping (model.DNS config)) handle
  end.

End Handlers.

(** * Properties *)

(** ** The server-address parser *)

Definition udp (a b c d port : Z) : DnsServer.t :=
  DnsServer.mk "udp" (net.v4InV6Prefix ++ [a; b; c; d])%list port.

Lemma withScheme_prefixed (v : string) :
  withScheme ("udp://" ++ v) = "udp://" ++ v.
Proof. reflexivity. Qed.

Lemma withScheme_absent (v : string) :
  strings.Index v "://" < 0 -> withScheme v = "udp://" ++ v.
Proof.
  intros H. unfold withScheme.
  destruct (strings.Index v "://" <? 0) eqn:E; [reflexivity|].
  apply Z.ltb_ge in E. lia.
Qed.

(** C8.  [ParseDnsServer] on every input: a value without "://" is read as
    a UDP address; the parse fails when the scheme is not udp, when the
    host is no IP literal, and when a port is given that is no integer;
    the port is 53 when none is given; and the four rows of the parser
    table hold. *)
Theorem ParseDnsServer_behaviour :
  (forall v, strings.Index v "://" < 0 ->
             ParseDnsServer v = ParseDnsServer ("udp://" ++ v))
  /\ (forall v s, ParseDnsServer v = Ok s -> DnsServer.Network s = "udp")
  /\ (forall v e, url.Parse (withScheme v) = inr e ->
                  ParseDnsServer v = Err (ErrURL e))
  /\ (forall v u, url.Parse (withScheme v) = inl u ->
        url.Scheme u <> "udp" ->
        ParseDnsServer v = Err (ErrNotSupport (withScheme v) (url.Scheme u)))
  /\ (forall v u, url.Parse (withScheme v) = inl u ->
        url.Scheme u = "udp" ->
        net.ParseIP (url.Hostname u) = [] ->
        ParseDnsServer v
        = Err (ErrIPInvalid (withScheme v) (url.Hostname u)))
  /\ (forall v u e, url.Parse (withScheme v) = inl u ->
        url.Scheme u = "udp" ->
        net.ParseIP (url.Hostname u) <> [] ->
        url.Port u <> "" ->
        strconv.Atoi (url.Port u) = inr e ->
        ParseDnsServer v = Err (ErrPortInvalid (withScheme v) (url.Port u)))
  /\ (forall v u, url.Parse (withScheme v) = inl u ->
        url.Scheme u = "udp" ->
        net.ParseIP (url.Hostname u) <> [] ->
        url.Port u = "" ->
        ParseDnsServer v
        = Ok (DnsServer.mk "udp" (net.ParseIP (url.Hostname u)) 53))
  /\ (forall v u port, url.Parse (withScheme v) = inl u ->
        url.Scheme u = "udp" ->
        net.ParseIP (url.Hostname u) <> [] ->
        url.Port u <> "" ->
        strconv.Atoi (url.Port u) = inl port ->
        ParseDnsServer v
        = Ok (DnsServer.mk "udp" (net.ParseIP (url.Hostname u)) port))
  /\ ParseDnsServer "8.8.8.8" = Ok (udp 8 8 8 8 53)
  /\ ParseDnsServer "udp://1.1.1.1:5353" = Ok (udp 1 1 1 1 5353)
  /\ ParseDnsServer "tcp://1.1.1.1" = Err (ErrNotSupport "tcp://1.1.1.1" "tcp")
  /\ ParseDnsServer "udp://not-an-ip"
     = Err (ErrIPInvalid "udp://not-an-ip" "not-an-ip")
  /\ ParseDnsServer "udp://1.1.1.1:http"
     = Err (ErrURL (url.ErrInvalidPort ":http"))
  /\ ParseDnsServer "udp://1.1.1.1:99999999999999999999"
     = Err (ErrPortInvalid "udp://1.1.1.1:99999999999999999999"
                           "99999999999999999999").
Proof.
  assert (len0 : forall (l : net.IP), (List.length l =? 0)%nat = true <-> l = []).
  { intros l. destruct l; simpl; split; congruence. }
  assert (slen0 : forall s, (String.length s =? 0)%nat = true <-> s = "").
  { intros s. destruct s; simpl; split; congruence. }
  repeat match goal with |- _ /\ _ => split end;
    try match goal with
        | |- ParseDnsServer _ = _ => vm_compute; reflexivity
        end.
  - intros v H. unfold ParseDnsServer.
    rewrite withScheme_prefixed, (withScheme_absent v H). reflexivity.
  - intros v s. unfold ParseDnsServer.
    destruct (url.Parse (withScheme v)) as [u|e]; [|discriminate].
    destruct (String.eqb (url.Scheme u) "udp") eqn:E; simpl; [|discriminate].
    apply String.eqb_eq in E.
    destruct (List.length _ =? 0)%nat; [discriminate|].
    destruct (String.length _ =? 0)%nat.
    + intros [= <-]. exact E.
    + destruct (strconv.Atoi _); [|discriminate]. intros [= <-]. exact E.
  - intros v e H. unfold ParseDnsServer. rewrite H. reflexivity.
  - intros v u H Hs. unfold ParseDnsServer. rewrite H.
    apply String.eqb_neq in Hs. rewrite Hs. reflexivity.
  - intros v u H Hs Hip. unfold ParseDnsServer. rewrite H, Hs, Hip.
    reflexivity.
  - intros v u e H Hs Hip Hp Ha. unfold ParseDnsServer. rewrite H, Hs. simpl.
    destruct (List.length _ =? 0)%nat eqn:E1; [apply len0 in E1; contradiction|].
    destruct (String.length _ =? 0)%nat eqn:E2; [apply slen0 in E2; contradiction|].
    rewrite Ha. reflexivity.
  - intros v u H Hs Hip Hp. unfold ParseDnsServer. rewrite H, Hs. simpl.
    destruct (List.length _ =? 0)%nat eqn:E1; [apply len0 in E1; contradiction|].
    rewrite Hp. reflexivity.
  - intros v u port H Hs Hip Hp Ha. unfold ParseDnsServer. rewrite H, Hs. simpl.
    destruct (List.length _ =? 0)%nat eqn:E1; [apply len0 in E1; contradiction|].
    destruct (String.length _ =? 0)%nat eqn:E2; [apply slen0 in E2; contradiction|].
    rewrite Ha. reflexivity.
Qed.

(** ** The race resolver *)

(** An environment in which no server is reachable: every exchange ends
    with a nil message and a timeout, in the order [order]. *)
Definition unreachable (order : list nat) : Env :=
  mkEnv (fun _ _ => miekg.mkReply None (Some "i/o timeout")) order.

(** An environment in which every server answers [answer]. *)
Definition answering (answer : list miekg.RR) (order : list nat) : Env :=
  mkEnv (fun _ _ => miekg.mkReply (Some (miekg.mkMsg answer)) None) order.

Definition neverDone : Context := mkContext None.
Definition doneFirst : Context := mkContext (Some O).

(** C5, as stated, fails: with no server and a scope that is never
    cancelled, [ResolveDomain] does not return. *)
Lemma ResolveDomain_no_server_blocks :
  snd (ResolveDomain neverDone "example.com" [] (unreachable [])) = Blocked
  /\ ~ (exists res,
          snd (ResolveDomain neverDone "example.com" [] (unreachable []))
          = Returned res).
Proof.
  split; [reflexivity|]. intros [res H]. discriminate H.
Qed.

(** C5, amended.  With no server, [ResolveDomain] starts no exchange and
    never yields an answer: it returns the cancellation error when the
    caller's scope is cancelled, and blocks as long as it is not. *)
Theorem ResolveDomain_no_server :
  forall ctx domain env,
    ResolveDomain ctx domain [] env
    = ([], match doneAfter ctx with
           | Some _ => Returned ([], DnsServer.zero, Some ErrCanceled)
           | None => Blocked
           end).
Proof.
  intros [d] domain [ex order]. unfold ResolveDomain. simpl.
  assert (H : firstArrival 0 order = None).
  { induction order as [|i order IH]; [reflexivity|]. simpl. exact IH. }
  rewrite H. destruct d as [[|k]|]; reflexivity.
Qed.

(** C3.  An attempt whose exchange fails with a nil message does not
    complete with an empty address set: reading [r.Answer] panics, and when
    this attempt is the first to finish the race ends in that panic. *)
Theorem failed_exchange_panics :
  forall (s : DnsServer.t) (domain : string) (order : list nat),
    attempt (unreachable (O :: order)) domain s = Panics NilDereference
    /\ ResolveDomain neverDone domain [s] (unreachable (O :: order))
       = ([EvExchange (DnsServer.Addr s) domain], Panicked NilDereference).
Proof.
  intros s domain order. split; reflexivity.
Qed.

(** What the race does when the library hands back a message together
    with its error: the attempt completes with the addresses found in it. *)
Lemma attempt_with_message :
  forall env domain s m,
    miekg.r (Exchange env (DnsServer.Addr s) domain) = Some m ->
    attempt env domain s = Sends (answerIPs (miekg.Answer m)) s.
Proof.
  intros env domain s m H. unfold attempt. rewrite H. reflexivity.
Qed.

(** The only error of [ResolveDomain] is the cancellation, and it comes
    with no address and the zero server. *)
Lemma ResolveDomain_error :
  forall ctx domain servers env t ips server e,
    ResolveDomain ctx domain servers env = (t, Returned (ips, server, Some e)) ->
    ips = [] /\ server = DnsServer.zero /\ e = ErrCanceled
    /\ t = map (fun s => EvExchange (DnsServer.Addr s) domain) servers.
Proof.
  intros [d] domain servers env t ips server e. unfold ResolveDomain. simpl.
  intros H. injection H as Ht Ho. subst t.
  destruct d as [[|k]|];
    destruct (firstArrival (List.length servers) (arrival env)) as [i|];
    try (destruct (nth_error servers i) as [s|]; [destruct (attempt env domain s)|]);
    try discriminate; injection Ho as <- <- <-; auto.
Qed.

(** ** Matching *)

Definition endsWith (d suffix : string) : Prop :=
  exists front, d = front ++ suffix.

Lemma string_length_app (a b : string) :
  String.length (a ++ b) = (String.length a + String.length b)%nat.
Proof. induction a as [|c a IH]; simpl; [reflexivity | now rewrite IH]. Qed.

Lemma drop_app (a b : string) : strings.drop (String.length a) (a ++ b) = b.
Proof. induction a as [|c a IH]; simpl; [now destruct b | exact IH]. Qed.

Lemma take_drop (n : nat) (s : string) : strings.take n s ++ strings.drop n s = s.
Proof.
  revert s. induction n as [|n IH]; intros s; destruct s as [|c s]; simpl;
    try reflexivity. now rewrite IH.
Qed.

Lemma HasSuffix_endsWith (d suffix : string) :
  strings.HasSuffix d suffix = true <-> endsWith d suffix.
Proof.
  unfold strings.HasSuffix, endsWith. split.
  - intros H. apply andb_true_iff in H as [_ H]. apply String.eqb_eq in H.
    exists (strings.take (String.length d - String.length suffix) d).
    pose proof (take_drop (String.length d - String.length suffix) d) as E.
    rewrite H in E. symmetry. exact E.
  - intros [front ->]. rewrite string_length_app. apply andb_true_iff. split.
    + apply Nat.leb_le. lia.
    + replace (String.length front + String.length suffix
               - String.length suffix)%nat with (String.length front) by lia.
      rewrite drop_app. apply String.eqb_refl.
Qed.

(** The mapping test on a pattern that is not empty: a pattern that begins
    with '*' matches the domains that end with the rest of the pattern, any
    other pattern matches itself only. *)
Lemma matchRule_wildcard (tail domain : string) :
  exists b, matchRule (String "*" tail) domain = Some b
            /\ (b = true <-> endsWith domain tail).
Proof.
  unfold matchRule. eexists. split; [reflexivity|].
  rewrite Ascii.eqb_refl, andb_true_l.
  rewrite orb_true_iff, HasSuffix_endsWith. split; [|auto].
  intros [H|H]; [exact H|]. apply String.eqb_eq in H. subst domain.
  exists "*". reflexivity.
Qed.

Lemma matchRule_exact (c : ascii) (tail domain : string) :
  c <> "*"%char ->
  exists b, matchRule (String c tail) domain = Some b
            /\ (b = true <-> domain = String c tail).
Proof.
  intros Hc. unfold matchRule. eexists. split; [reflexivity|].
  apply Ascii.eqb_neq in Hc. rewrite Hc, andb_false_l, orb_false_l.
  rewrite String.eqb_eq. split; congruence.
Qed.

(** ** The handlers *)

(** Closed evaluations of the parsers, used below. *)
Lemma parseServers_8888 : parseServers ["8.8.8.8"] = Ok [udp 8 8 8 8 53].
Proof. vm_compute. reflexivity. Qed.

Lemma parseServers_1111 : parseServers ["1.1.1.1"] = Ok [udp 1 1 1 1 53].
Proof. vm_compute. reflexivity. Qed.

Lemma parseIPs_10001 :
  forall mappingDomain servers ips,
    parseIPs mappingDomain servers ips ["10.0.0.1"]
    = Ok [net.v4InV6Prefix ++ [10; 0; 0; 1]]%list.
Proof. intros. vm_compute. reflexivity. Qed.

Lemma Addr_1111 : DnsServer.Addr (udp 1 1 1 1 53) = "1.1.1.1:53".
Proof. vm_compute. reflexivity. Qed.

Lemma race_unreachable_1111 :
  forall domain order,
    ResolveDomain neverDone domain [udp 1 1 1 1 53] (unreachable (O :: order))
    = ([EvExchange "1.1.1.1:53" domain], Panicked NilDereference).
Proof.
  intros. unfold ResolveDomain.
  cbn [map List.length firstArrival find Nat.ltb Nat.leb doneAfter neverDone
       arrival unreachable nth_error].
  rewrite Addr_1111. reflexivity.
Qed.

Lemma matchRule_same (p : string) :
  p <> "" -> matchRule p p = Some true.
Proof.
  destruct p as [|c p]; [congruence|]. intros _. unfold matchRule.
  rewrite String.eqb_refl, orb_true_r. reflexivity.
Qed.

Section HandlerProperties.

Variable GeoLookUp : net.IP -> string.
Variable newCacheHandle : Handle -> Handle * option error.
Variable selectIP : list net.IP -> net.IP.

(** The record of the general resolver after a failed race. *)
Definition failedDynamic (domain : string) : DNS.t :=
  DNS.mk TypDynamic EmptyString domain [] [] DnsServer.zero
         (selectIP []) (GeoLookUp (selectIP [])) 0.

(** C4.  When the race of the general resolver returns an error, the
    handler logs it, runs the next handler, and returns its own dynamic
    record, whatever record the next handler came back with. *)
Theorem general_failure_keeps_own_record :
  forall servers (next : HandleFn) ctx domain env serverAddrs
         tr ips server e tn (fromNext : option DNS.t),
    parseServers servers = Ok serverAddrs ->
    ResolveDomain ctx domain serverAddrs env
    = (tr, Returned (ips, server, Some e)) ->
    next ctx domain env = (tn, Returned fromNext) ->
    exists h,
      newGeneralHandle GeoLookUp selectIP servers (Some next)
      = (Some h, None)
      /\ h ctx domain env
         = ((tr ++ [EvLog "lookup ip failed" domain] ++ tn)%list,
            Returned (Some (failedDynamic domain))).
Proof.
  intros servers next ctx domain env serverAddrs tr ips server e tn
         fromNext Hp Hr Hn.
  unfold newGeneralHandle. rewrite Hp. eexists. split; [reflexivity|].
  destruct (ResolveDomain_error _ _ _ _ _ _ _ _ Hr) as (-> & -> & -> & _).
  unfold generalHandler, bind. rewrite Hr. simpl.
  rewrite Hn. simpl. rewrite app_nil_r. reflexivity.
Qed.

(** On a pattern that is not empty the mapping handlers do what the test
    says: a miss is the run of the next handler, unchanged. *)
Lemma mapping_miss_delegates :
  forall mappingDomain serverAddrs netIP next ctx domain env,
    matchRule mappingDomain domain = Some false ->
    serverMappingHandler mappingDomain serverAddrs next ctx domain env
    = call next ctx domain env
    /\ staticMappingHandler GeoLookUp mappingDomain netIP next ctx domain env
       = call next ctx domain env.
Proof.
  intros * H. unfold serverMappingHandler, staticMappingHandler.
  rewrite H. split; reflexivity.
Qed.

(** C7.  A mapping rule with the empty pattern is accepted at build
    time, and its handler neither matches nor delegates: the test reads
    [mappingDomain[0]] and panics, on every query, for both shapes of
    rule. *)
Theorem empty_pattern_panics :
  forall (next : Handle) ctx domain env,
    (exists h,
        newMappingHandle GeoLookUp "" ["8.8.8.8"] [] next = (Some h, None)
        /\ h ctx domain env = ([], Panicked IndexOutOfRange))
    /\ (exists h,
           newMappingHandle GeoLookUp "" [] ["10.0.0.1"] next
           = (Some h, None)
           /\ h ctx domain env = ([], Panicked IndexOutOfRange)).
Proof.
  intros next ctx domain env. unfold newMappingHandle.
  cbn [List.length Nat.eqb Nat.ltb Nat.leb andb].
  rewrite parseServers_8888, parseIPs_10001.
  split; eexists; (split; [reflexivity|]); reflexivity.
Qed.

(** The record of a server-backed rule. *)
Definition mappedBy (mappingDomain domain : string)
           (serverAddrs : list DnsServer.t) (ips : list net.IP)
           (server : DnsServer.t) : DNS.t :=
  DNS.mk TypStatic mappingDomain domain ips serverAddrs server
         [] EmptyString 0.

(** When the race returns, with or without its error, a matching
    server-backed rule answers with its own static record and the next
    handler is not run: the run is the same for every next handler. *)
Lemma server_rule_is_final :
  forall mappingDomain serverAddrs next ctx domain env tr ips server err,
    matchRule mappingDomain domain = Some true ->
    ResolveDomain ctx domain serverAddrs env
    = (tr, Returned (ips, server, err)) ->
    serverMappingHandler mappingDomain serverAddrs next ctx domain env
    = ((tr ++ match err with
              | Some _ => [EvLog "lookup ip failed" domain]
              | None => []
              end)%list,
       Returned (Some (mappedBy mappingDomain domain serverAddrs ips server))).
Proof.
  intros * Hm Hr. unfold serverMappingHandler, bind. rewrite Hm, Hr.
  destruct err; reflexivity.
Qed.

(** C9.  A matching server-backed rule whose only server is unreachable
    does not return a static record with no address: the attempt panics
    on the nil message, and so does the handler. *)
Theorem unreachable_server_rule_panics :
  forall (next : Handle) domain order,
  exists h,
    newMappingHandle GeoLookUp "example.com" ["1.1.1.1"] [] next
    = (Some h, None)
    /\ h neverDone "example.com" (unreachable (O :: order))
       = ([EvExchange "1.1.1.1:53" "example.com"], Panicked NilDereference)
    /\ matchRule "example.com" "example.com" = Some true
    /\ matchRule "*.example.com" domain
       = Some (strings.HasSuffix domain ".example.com"
               || String.eqb "*.example.com" domain).
Proof.
  intros next domain order. unfold newMappingHandle.
  cbn [List.length Nat.eqb Nat.ltb Nat.leb andb].
  rewrite parseServers_1111. eexists. split; [reflexivity|].
  split; [|split; reflexivity].
  unfold serverMappingHandler. rewrite matchRule_same by discriminate.
  unfold bind. rewrite race_unreachable_1111. reflexivity.
Qed.

End HandlerProperties.

(** ** The chain builder *)

Section ChainProperties.

Variable GeoLookUp : net.IP -> string.
Variable newCacheHandle : Handle -> Handle * option error.
Variable selectIP : list net.IP -> net.IP.

Local Abbreviation newMappingHandle' := (newMappingHandle GeoLookUp).
Local Abbreviation applyMappings' := (applyMappings GeoLookUp).
Local Abbreviation ApplyConfig' init :=
  (ApplyConfig GeoLookUp init newCacheHandle selectIP).

(** A rule that builds is one of the two handlers. *)
Lemma newMappingHandle_built :
  forall mappingDomain servers ips next h,
    newMappingHandle' mappingDomain servers ips next = (Some h, None) ->
    (exists serverAddrs,
        servers <> [] /\ parseServers servers = Ok serverAddrs
        /\ h = serverMappingHandler mappingDomain serverAddrs next)
    \/ (exists netIP,
           servers = [] /\ netIP <> []
           /\ parseIPs mappingDomain servers ips ips = Ok netIP
           /\ h = staticMappingHandler GeoLookUp mappingDomain netIP next).
Proof.
  intros mappingDomain servers ips next h. unfold newMappingHandle.
  destruct servers as [|s servers].
  - destruct ips as [|i ips]; [discriminate|].
    cbn [List.length Nat.eqb Nat.ltb Nat.leb andb].
    destruct (parseIPs mappingDomain [] (i :: ips) (i :: ips)) as [netIP|e] eqn:E;
      [|discriminate].
    intros [= <-]. right. exists netIP. repeat split; auto.
    intros ->. simpl in E.
    destruct (List.length (net.ParseIP i) =? 0)%nat; [discriminate|].
    destruct (parseIPs _ _ _ ips); discriminate.
  - cbn [List.length Nat.eqb Nat.ltb Nat.leb andb].
    destruct (parseServers (s :: servers)) as [serverAddrs|e]; [|discriminate].
    intros [= <-]. left. exists serverAddrs. repeat split; auto. discriminate.
Qed.

Lemma newMappingHandle_error_or_handle :
  forall mappingDomain servers ips next,
    (exists h, newMappingHandle' mappingDomain servers ips next = (Some h, None))
    \/ (exists e, newMappingHandle' mappingDomain servers ips next = (None, Some e)).
Proof.
  intros. unfold newMappingHandle.
  destruct (_ && _); [right; eauto|].
  destruct (0 <? _)%nat.
  - destruct (parseServers servers); [left|right]; eauto.
  - destruct (parseIPs _ _ _ _); [left|right]; eauto.
Qed.

(** The rules are wrapped from the last to the first, so the first rule
    is the outermost handler. *)
Lemma applyMappings_cons :
  forall v later inner h,
    applyMappings' (v :: later) inner = (Some h, None) ->
    exists hl,
      applyMappings' later inner = (hl, None)
      /\ newMappingHandle' (model.Domain v) (model.IP v) (model.Server v) hl
         = (Some h, None).
Proof.
  intros v later inner h. simpl.
  destruct (applyMappings' later inner) as [hl [e|]]; [discriminate|].
  intros H. exists hl. split; [reflexivity | exact H].
Qed.

(** A general server that does not parse does not stop the build: the
    error of [newGeneralHandle] is dropped and the cache layer is built
    over a nil handler. *)
Lemma general_error_dropped :
  forall includeSystem servers rules fallback e,
    parseServers servers = Err e ->
    snd (newGeneralHandle GeoLookUp selectIP servers fallback) = Some e
    /\ ApplyConfig' None
         (model.mkConfig (model.mkDNS includeSystem servers rules)) fallback
       = applyMappings' rules (fst (newCacheHandle None)).
Proof.
  intros includeSystem servers rules fallback e H.
  unfold ApplyConfig, newGeneralHandle. simpl. rewrite H. split; reflexivity.
Qed.

(** C2.  With the general server "tcp://1.1.1.1", which fails the server
    parser, [ApplyConfig] reports no error: it returns the cache layer
    built over a nil handler. *)
Theorem unparsable_general_server_builds :
  forall includeSystem (fallback : Handle),
    ParseDnsServer "tcp://1.1.1.1"
    = Err (ErrNotSupport "tcp://1.1.1.1" "tcp")
    /\ snd (newGeneralHandle GeoLookUp selectIP ["tcp://1.1.1.1"] fallback)
       = Some (ErrNotSupport "tcp://1.1.1.1" "tcp")
    /\ ApplyConfig' None
         (model.mkConfig (model.mkDNS includeSystem ["tcp://1.1.1.1"] []))
         fallback
       = (fst (newCacheHandle None), None).
Proof.
  intros includeSystem fallback.
  assert (P : parseServers ["tcp://1.1.1.1"]
              = Err (ErrNotSupport "tcp://1.1.1.1" "tcp"))
    by (vm_compute; reflexivity).
  split; [vm_compute; reflexivity|].
  destruct (general_error_dropped includeSystem _ [] fallback _ P) as [H1 H2].
  split; [exact H1 | exact H2].
Qed.

(** The static branch, reached with a pattern that is not empty, does
    what the static-IP rule promises: no exchange, the parsed addresses,
    the first of them selected. *)
Lemma static_rule_answers :
  forall mappingDomain ip0 netIP next ctx domain env,
    matchRule mappingDomain domain = Some true ->
    staticMappingHandler GeoLookUp mappingDomain (ip0 :: netIP) next
                         ctx domain env
    = ([], Returned (Some (DNS.mk TypStatic mappingDomain domain
                                  (ip0 :: netIP) [] DnsServer.zero ip0
                                  (GeoLookUp ip0) 0))).
Proof.
  intros * H. unfold staticMappingHandler. rewrite H. reflexivity.
Qed.

(** C1.  [ApplyConfig] hands the rule's IP list to [newMappingHandle] as
    its server list.  The rule with pattern "example.com" and the single
    IP "10.0.0.1" becomes a server-backed rule: a matching query starts
    an exchange with 10.0.0.1:53, and the record carries what that server
    answered, or no address when the scope is cancelled first. *)
Theorem ip_rule_queries_the_network :
  forall includeSystem servers (fallback : Handle) order,
  exists h,
    ApplyConfig' None
      (model.mkConfig
         (model.mkDNS includeSystem servers
                      [model.mkRule "example.com" ["10.0.0.1"] []]))
      fallback
    = (Some h, None)
    /\ h neverDone "example.com"
         (answering [miekg.A [93; 184; 216; 34]] (O :: order))
       = ([EvExchange "10.0.0.1:53" "example.com"],
          Returned (Some (mappedBy "example.com" "example.com"
                                   [udp 10 0 0 1 53] [[93; 184; 216; 34]]
                                   (udp 10 0 0 1 53))))
    /\ h doneFirst "example.com" (unreachable order)
       = ([EvExchange "10.0.0.1:53" "example.com";
           EvLog "lookup ip failed" "example.com"],
          Returned (Some (mappedBy "example.com" "example.com"
                                   [udp 10 0 0 1 53] [] DnsServer.zero))).
Proof.
  intros includeSystem servers fallback order.
  unfold ApplyConfig. cbn [model.Mapping model.DNS applyMappings
                           model.Domain model.IP model.Server].
  unfold newMappingHandle.
  cbn [List.length Nat.eqb Nat.ltb Nat.leb andb].
  assert (P : parseServers ["10.0.0.1"] = Ok [udp 10 0 0 1 53])
    by (vm_compute; reflexivity).
  assert (A : DnsServer.Addr (udp 10 0 0 1 53) = "10.0.0.1:53")
    by (vm_compute; reflexivity).
  rewrite P. eexists. split; [reflexivity|].
  unfold serverMappingHandler.
  rewrite matchRule_same by discriminate.
  unfold bind, ResolveDomain.
  cbn [map List.length firstArrival find Nat.ltb Nat.leb doneAfter
       neverDone doneFirst arrival unreachable answering nth_error].
  rewrite A. split; reflexivity.
Qed.

(** C6.  With the rules [A; B] and a domain that both match, every
    record the chain returns carries A's pattern; a record does come
    back, with no exchange, when A is built as a static rule, and
    whenever A's race returns otherwise; and the domains that A misses
    get exactly the run of the chain built from [B] alone. *)
Theorem first_rule_wins :
  forall InitGeoIP includeSystem servers (A B : model.MappingRule)
         (fallback : Handle) h ctx domain env,
    ApplyConfig' InitGeoIP
      (model.mkConfig (model.mkDNS includeSystem servers [A; B])) fallback
    = (Some h, None) ->
    matchRule (model.Domain A) domain = Some true ->
    matchRule (model.Domain B) domain = Some true ->
    (forall t p,
        h ctx domain env = (t, Returned p) ->
        exists r, p = Some r /\ DNS.MappingDomain r = model.Domain A)
    /\ ((model.IP A = []
         \/ exists serverAddrs res,
             parseServers (model.IP A) = Ok serverAddrs
             /\ snd (ResolveDomain ctx domain serverAddrs env)
                = Returned res) ->
        exists t r,
          h ctx domain env = (t, Returned (Some r))
          /\ DNS.MappingDomain r = model.Domain A
          /\ DNS.Typ r = TypStatic)
    /\ (exists hB,
           ApplyConfig' InitGeoIP
             (model.mkConfig (model.mkDNS includeSystem servers [B]))
             fallback
           = (Some hB, None)
           /\ forall d,
               matchRule (model.Domain A) d = Some false ->
               h ctx d env = hB ctx d env).
Proof.
  intros InitGeoIP includeSystem servers A B fallback h ctx domain env.
  unfold ApplyConfig. destruct InitGeoIP as [e|]; [discriminate|].
  cbn [model.Mapping model.DNS model.Servers].
  set (inner := fst (newCacheHandle _)).
  intros Hb HA HB.
  apply applyMappings_cons in Hb as (hl & Hl & Hh).
  destruct (newMappingHandle_error_or_handle
              (model.Domain B) (model.IP B) (model.Server B) inner)
    as [[hB HhB]|[e HhB]];
    [|simpl in Hl; rewrite HhB in Hl; discriminate].
  assert (hl = Some hB) as -> by (simpl in Hl; rewrite HhB in Hl; congruence).
  apply newMappingHandle_built in Hh
    as [(serverAddrs & Hne & Hp & ->)|(netIP & Hs & Hne & Hp & ->)].
  - (* A runs a race *)
    split; [|split].
    + intros t p. unfold serverMappingHandler, bind. rewrite HA.
      destruct (ResolveDomain ctx domain serverAddrs env) as [tr [[[ips s] err]| |]];
        [|discriminate|discriminate].
      destruct err; simpl; intros [= _ <-]; eexists; split; reflexivity.
    + intros [H|(sa & res & Hsa & Hres)]; [contradiction|].
      rewrite Hp in Hsa. injection Hsa as <-.
      destruct (ResolveDomain ctx domain serverAddrs env) as [tr o] eqn:E.
      simpl in Hres. subst o. destruct res as [[ips s] err].
      rewrite (server_rule_is_final _ _ _ _ _ _ _ _ _ _ HA E).
      do 2 eexists. split; [reflexivity|]. split; reflexivity.
    + exists hB. split; [simpl; exact HhB|].
      intros d Hd. unfold serverMappingHandler. rewrite Hd. reflexivity.
  - (* A is static *)
    destruct netIP as [|ip0 netIP]; [contradiction|].
    split; [|split].
    + intros t p. rewrite (static_rule_answers _ _ _ _ _ _ _ HA).
      intros [= _ <-]. eexists. split; reflexivity.
    + intros _. rewrite (static_rule_answers _ _ _ _ _ _ _ HA).
      do 2 eexists. split; [reflexivity|]. split; reflexivity.
    + exists hB. split; [simpl; exact HhB|].
      intros d Hd. unfold staticMappingHandler. rewrite Hd. reflexivity.
Qed.

End ChainProperties.

(** ** Concrete runs *)

(** Stand-ins for the collaborators: a geolocation that knows no address,
    a cache that holds nothing and passes every query on, and a fallback
    that answers from the system resolver. *)
Definition noGeo : net.IP -> string := fun _ => "".

Definition emptyCache (next : Handle) : Handle * option error := (next, None).

Definition systemRecord (domain : string) : DNS.t :=
  DNS.mk TypSystem "" domain [[127; 0; 0; 1]] [] DnsServer.zero
         [127; 0; 0; 1] "" 0.

Definition systemFallback : HandleFn :=
  fun _ domain =>
    emit (EvForeign "system lookup") ;;; ret (Some (systemRecord domain)).

(** C4 at a concrete query: the scope is cancelled before 8.8.8.8 answers;
    the fallback runs, and the record is the resolver's own. *)
Lemma general_failure_keeps_own_record_witness :
  exists h,
    newGeneralHandle noGeo SelectIP ["8.8.8.8"] (Some systemFallback)
    = (Some h, None)
    /\ h doneFirst "example.com" (unreachable [])
       = ([EvExchange "8.8.8.8:53" "example.com";
           EvLog "lookup ip failed" "example.com";
           EvForeign "system lookup"],
          Returned (Some (failedDynamic noGeo SelectIP "example.com"))).
Proof.
  apply (general_failure_keeps_own_record
           noGeo SelectIP ["8.8.8.8"] systemFallback doneFirst "example.com"
           (unreachable []) [udp 8 8 8 8 53]
           [EvExchange "8.8.8.8:53" "example.com"] [] DnsServer.zero
           ErrCanceled [EvForeign "system lookup"]
           (Some (systemRecord "example.com")));
    vm_compute; reflexivity.
Defined.

Definition ruleA : model.MappingRule :=
  model.mkRule "*.example.com" [] ["10.0.0.1"].
Definition ruleB : model.MappingRule :=
  model.mkRule "a.example.com" [] ["10.0.0.2"].

Definition ip4 (a b c d : Z) : net.IP := (net.v4InV6Prefix ++ [a; b; c; d])%list.

(** The chain that [ApplyConfig] builds from [ruleA; ruleB], the general
    server 8.8.8.8, the empty cache and the system fallback. *)
Definition generalAB : Handle :=
  fst (emptyCache
         (fst (newGeneralHandle noGeo SelectIP ["8.8.8.8"]
                                (Some systemFallback)))).

Definition headAB : HandleFn :=
  staticMappingHandler noGeo "*.example.com" [ip4 10 0 0 1]
    (Some (staticMappingHandler noGeo "a.example.com" [ip4 10 0 0 2]
                                generalAB)).

Lemma parseIPs_one :
  forall mappingDomain servers ips v ip,
    net.ParseIP v = ip -> ip <> [] ->
    parseIPs mappingDomain servers ips [v] = Ok [ip].
Proof.
  intros * H Hne. simpl. rewrite H. destruct ip; [contradiction|reflexivity].
Qed.

Lemma chainAB_built :
  ApplyConfig noGeo None emptyCache SelectIP
    (model.mkConfig (model.mkDNS false ["8.8.8.8"] [ruleA; ruleB]))
    (Some systemFallback)
  = (Some headAB, None).
Proof.
  unfold ApplyConfig, headAB, ruleA, ruleB.
  cbn [model.Mapping model.DNS model.Servers applyMappings
       model.Domain model.IP model.Server].
  fold generalAB. unfold newMappingHandle.
  cbn [List.length Nat.eqb Nat.ltb Nat.leb andb].
  rewrite (parseIPs_one _ _ _ "10.0.0.2" (ip4 10 0 0 2))
    by (vm_compute; (reflexivity || discriminate)).
  cbn [List.length Nat.eqb Nat.ltb Nat.leb andb].
  rewrite (parseIPs_one _ _ _ "10.0.0.1" (ip4 10 0 0 1))
    by (vm_compute; (reflexivity || discriminate)).
  reflexivity.
Qed.

(** C6 at a concrete chain: "*.example.com" before "a.example.com",
    queried for "a.example.com". *)
Lemma first_rule_wins_witness :
  exists t r,
    headAB neverDone "a.example.com" (unreachable []) = (t, Returned (Some r))
    /\ DNS.MappingDomain r = "*.example.com"
    /\ DNS.Typ r = TypStatic.
Proof.
  apply (first_rule_wins noGeo emptyCache SelectIP None false ["8.8.8.8"]
           ruleA ruleB (Some systemFallback) headAB neverDone
           "a.example.com" (unreachable [])).
  - exact chainAB_built.
  - vm_compute. reflexivity.
  - vm_compute. reflexivity.
  - left. reflexivity.
Defined.

(** ** Round trip through the canonical form *)

(** *** Bytes and classes of bytes *)

Fixpoint allIn (P : ascii -> bool) (s : string) : bool :=
  match s with
  | EmptyString => true
  | String c rest => P c && allIn P rest
  end.

Lemma allIn_app (P : ascii -> bool) (a b : string) :
  allIn P (a ++ b) = allIn P a && allIn P b.
Proof.
  induction a as [|c a IH]; simpl; [reflexivity|].
  rewrite IH. apply andb_assoc.
Qed.

Lemma allIn_weaken (P Q : ascii -> bool) (s : string) :
  (forall c, P c = true -> Q c = true) ->
  allIn P s = true -> allIn Q s = true.
Proof.
  intros H. induction s as [|c s IH]; simpl; [reflexivity|].
  intros E. apply andb_true_iff in E as [E1 E2].
  rewrite (H _ E1), (IH E2). reflexivity.
Qed.

Lemma byteVal_byteOf (z : Z) : 0 <= z < 256 -> byteVal (byteOf z) = z.
Proof.
  intros H. unfold byteVal, byteOf.
  rewrite N_ascii_embedding by lia. lia.
Qed.

Lemma byteVal_range (c : ascii) : 0 <= byteVal c < 256.
Proof.
  unfold byteVal. pose proof (N_ascii_bounded c). lia.
Qed.

Lemma byteVal_inj (c d : ascii) : byteVal c = byteVal d -> c = d.
Proof.
  unfold byteVal. intros H.
  rewrite <- (ascii_N_embedding c), <- (ascii_N_embedding d).
  f_equal. lia.
Qed.

Lemma inRange_iff (lo hi c : ascii) :
  inRange lo hi c = true <-> byteVal lo <= byteVal c <= byteVal hi.
Proof.
  unfold inRange. rewrite andb_true_iff, !Z.leb_le. reflexivity.
Qed.

Lemma isDigit_iff (c : ascii) : isDigit c = true <-> 48 <= byteVal c <= 57.
Proof. unfold isDigit. rewrite inRange_iff. reflexivity. Qed.

Lemma eqb_byteOf (c : ascii) (z : Z) :
  0 <= z < 256 -> Ascii.eqb c (byteOf z) = (byteVal c =? z).
Proof.
  intros H. destruct (Ascii.eqb_spec c (byteOf z)) as [->|N].
  - rewrite byteVal_byteOf by exact H. symmetry. apply Z.eqb_refl.
  - symmetry. apply Z.eqb_neq. intros E. apply N.
    apply byteVal_inj. rewrite byteVal_byteOf by exact H. exact E.
Qed.

(** A test on a byte, decided on its value. *)
Lemma eqb_byteVal (c d : ascii) : Ascii.eqb c d = (byteVal c =? byteVal d).
Proof.
  destruct (Ascii.eqb_spec c d) as [->|N].
  - symmetry. apply Z.eqb_refl.
  - symmetry. apply Z.eqb_neq. intros E. apply N, byteVal_inj, E.
Qed.

(** *** Decimal numbers *)

Lemma digitChar_isDigit (d : Z) :
  0 <= d < 10 -> isDigit (strconv.digitChar d) = true.
Proof.
  intros H. apply isDigit_iff. unfold strconv.digitChar.
  rewrite byteVal_byteOf by lia. lia.
Qed.

Lemma digitVal_digitChar (d : Z) :
  0 <= d < 10 -> digitVal (strconv.digitChar d) = d.
Proof.
  intros H. unfold digitVal, strconv.digitChar.
  rewrite byteVal_byteOf by lia. lia.
Qed.

Lemma digits_allIn (fuel : nat) :
  forall n rest,
    0 <= n -> allIn isDigit rest = true ->
    allIn isDigit (strconv.digits fuel n rest) = true.
Proof.
  induction fuel as [|f IH]; intros n rest Hn Hr; simpl; [exact Hr|].
  assert (D : isDigit (strconv.digitChar (n mod 10)) = true)
    by (apply digitChar_isDigit, Z.mod_pos_bound; lia).
  destruct (n <? 10).
  - simpl. rewrite D. exact Hr.
  - apply IH; [apply Z.div_pos; lia|]. simpl. rewrite D. exact Hr.
Qed.

Lemma digits_cons (fuel : nat) :
  forall n c rest, exists c' rest', strconv.digits fuel n (String c rest) = String c' rest'.
Proof.
  induction fuel as [|f IH]; intros n c rest; simpl; [eauto|].
  destruct (n <? 10); [eauto|]. apply IH.
Qed.

Lemma digits_nonempty (fuel : nat) (n : Z) :
  exists c rest, strconv.digits (S fuel) n "" = String c rest.
Proof.
  simpl. destruct (n <? 10); [eauto|]. apply digits_cons.
Qed.

Lemma digitsValue_digits (fuel : nat) :
  forall n rest,
    0 <= n < 10 ^ Z.of_nat fuel ->
    strconv.digitsValue (strconv.digits fuel n rest) 0
    = strconv.digitsValue rest n.
Proof.
  induction fuel as [|f IH]; intros n rest Hn.
  - simpl in *. replace n with 0 by lia. reflexivity.
  - cbn [strconv.digits].
    assert (M : 0 <= n mod 10 < 10) by (apply Z.mod_pos_bound; lia).
    destruct (n <? 10) eqn:E.
    + apply Z.ltb_lt in E. cbn [strconv.digitsValue].
      rewrite digitChar_isDigit, digitVal_digitChar by exact M.
      rewrite Z.mod_small by lia. reflexivity.
    + apply Z.ltb_ge in E. rewrite IH.
      * cbn [strconv.digitsValue].
        rewrite digitChar_isDigit, digitVal_digitChar by exact M.
        f_equal. rewrite (Z.div_mod n 10) at 3 by lia. lia.
      * rewrite Nat2Z.inj_succ, Z.pow_succ_r in Hn by lia.
        split; [apply Z.div_pos; lia|].
        apply Z.div_lt_upper_bound; lia.
Qed.

(** [Atoi] reads back what [Itoa] wrote, for a number that is not
    negative. *)
Lemma Atoi_Itoa (n : Z) :
  0 <= n <= strconv.maxInt ->
  strconv.Atoi (strconv.Itoa n) = inl n
  /\ allIn isDigit (strconv.Itoa n) = true
  /\ strconv.Itoa n <> "".
Proof.
  intros H. unfold strconv.Itoa.
  destruct (n <? 0) eqn:E; [apply Z.ltb_lt in E; lia|].
  unfold strconv.FormatUint.
  assert (A : allIn isDigit (strconv.digits 20 n "") = true)
    by (apply digits_allIn; [lia|reflexivity]).
  assert (V : strconv.digitsValue (strconv.digits 20 n "") 0 = Some n).
  { rewrite digitsValue_digits; [reflexivity|].
    unfold strconv.maxInt in H. split; [lia|].
    change (10 ^ Z.of_nat 20) with 100000000000000000000. lia. }
  destruct (digits_nonempty 19 n) as (c & rest & Eq).
  rewrite Eq in *. split; [|split; [exact A | discriminate]].
  unfold strconv.Atoi.
  assert (Hc : isDigit c = true) by (simpl in A; apply andb_true_iff in A; tauto).
  apply isDigit_iff in Hc.
  assert (c <> "-"%char)
    by (intros ->; change (byteVal "-") with 45 in Hc; lia).
  assert (c <> "+"%char)
    by (intros ->; change (byteVal "+") with 43 in Hc; lia).
  replace (match String c rest with
           | String "-" r => (true, r)
           | String "+" r => (false, r)
           | _ => (false, String c rest)
           end) with (false, String c rest).
  - rewrite V. unfold strconv.minInt, strconv.maxInt in *.
    destruct (_ <=? n) eqn:E1; destruct (n <=? _) eqn:E2; simpl;
      try reflexivity; (apply Z.leb_gt in E1 || apply Z.leb_gt in E2); lia.
  - destruct c as [[] [] [] [] [] [] [] []]; try reflexivity; congruence.
Qed.

(** A property of every number in a range, checked by running it. *)
Fixpoint checkUpTo (check : Z -> bool) (n : nat) (z : Z) : bool :=
  match n with
  | O => true
  | S k => check z && checkUpTo check k (z + 1)
  end.

Lemma checkUpTo_sound (check : Z -> bool) (n : nat) :
  forall z, checkUpTo check n z = true ->
            forall k, z <= k < z + Z.of_nat n -> check k = true.
Proof.
  induction n as [|n IH]; intros z H k Hk; [lia|].
  simpl in H. apply andb_true_iff in H as [H0 H1].
  destruct (Z.eq_dec k z) as [->|N]; [exact H0|].
  apply (IH (z + 1) H1). lia.
Qed.

(** *** Dotted quads *)

(** What the loop of [parseIPv4] does along the digits of one octet. *)
Fixpoint octetScan (d : string) (val : Z) (digLen : nat) : option (Z * nat) :=
  match d with
  | EmptyString => Some (val, digLen)
  | String c rest =>
      if (digLen =? 1)%nat && (val =? 0) then None
      else
        let val' := val * 10 + digitVal c in
        if val' >? 255 then None else octetScan rest val' (S digLen)
  end.

Lemma parseIPv4Loop_digits (d : string) :
  forall rest fields val digLen,
    allIn isDigit d = true ->
    net.parseIPv4Loop (d ++ rest) fields val digLen
    = match octetScan d val digLen with
      | Some (v, k) => net.parseIPv4Loop rest fields v k
      | None => None
      end.
Proof.
  induction d as [|c d IH]; intros rest fields val digLen H; [reflexivity|].
  simpl in H. apply andb_true_iff in H as [Hc Hd].
  cbn [append net.parseIPv4Loop octetScan]. rewrite Hc.
  destruct ((digLen =? 1)%nat && (val =? 0)); [reflexivity|].
  destruct (val * 10 + digitVal c >? 255); [reflexivity|].
  apply IH, Hd.
Qed.

Definition octetOk (b : Z) : bool :=
  allIn isDigit (strconv.FormatUint b)
  && match octetScan (strconv.FormatUint b) 0 O with
     | Some (v, k) => (v =? b) && negb (k =? 0)%nat
     | None => false
     end.

Lemma octets_checked : checkUpTo octetOk 256 0 = true.
Proof. vm_compute. reflexivity. Qed.

Definition isByte (b : Z) : Prop := 0 <= b < 256.

Lemma parseIPv4Loop_octet (b : Z) (rest : string) (fields : list Z) :
  isByte b ->
  exists k, k <> O
            /\ net.parseIPv4Loop (strconv.FormatUint b ++ rest) fields 0 O
               = net.parseIPv4Loop rest fields b k.
Proof.
  intros Hb.
  pose proof (checkUpTo_sound _ _ _ octets_checked b) as H.
  unfold octetOk in H. specialize (H ltac:(unfold isByte in Hb; lia)).
  apply andb_true_iff in H as [Hd Hs].
  rewrite (parseIPv4Loop_digits _ rest fields 0 O Hd).
  destruct (octetScan (strconv.FormatUint b) 0 O) as [[v k]|]; [|discriminate].
  apply andb_true_iff in Hs as [Hv Hk]. apply Z.eqb_eq in Hv. subst v.
  exists k. split; [|reflexivity].
  intros ->. discriminate.
Qed.

Lemma FormatUint_cons (b : Z) :
  exists c rest, strconv.FormatUint b = String c rest.
Proof. apply (digits_nonempty 19). Qed.

Lemma FormatUint_digits (b : Z) :
  0 <= b -> allIn isDigit (strconv.FormatUint b) = true.
Proof. intros H. apply digits_allIn; [exact H | reflexivity]. Qed.

Lemma parseIPv4Loop_dot (b : Z) (rest : string) (fields : list Z) (val : Z)
      (k : nat) :
  k <> O -> List.length fields <> 3%nat ->
  net.parseIPv4Loop (String "." (strconv.FormatUint b ++ rest)) fields val k
  = net.parseIPv4Loop (strconv.FormatUint b ++ rest) (fields ++ [val])%list 0 O.
Proof.
  intros Hk Hf. destruct (FormatUint_cons b) as (c & r & E). rewrite E.
  cbn [append net.parseIPv4Loop].
  change (isDigit ".") with false. cbn [Ascii.eqb Bool.eqb].
  apply Nat.eqb_neq in Hk, Hf. rewrite Hk, Hf. reflexivity.
Qed.

Lemma string_app_assoc (a b c : string) : (a ++ b) ++ c = a ++ (b ++ c).
Proof. induction a as [|x a IH]; simpl; [reflexivity | now rewrite IH]. Qed.

Lemma string_app_nil_r (a : string) : a ++ "" = a.
Proof. induction a as [|x a IH]; simpl; [reflexivity | now rewrite IH]. Qed.

Ltac read_octet H :=
  match goal with
  | |- context [net.parseIPv4Loop (strconv.FormatUint ?b ++ ?rest) ?fields 0 O] =>
      let k := fresh "k" in
      let Hk := fresh "Hk" in
      let E := fresh "E" in
      destruct (parseIPv4Loop_octet b rest fields H) as (k & Hk & E);
      rewrite E; clear E
  end.

(** [parseIPv4] reads back the dotted form of four bytes. *)
Lemma parseIPv4_string4 (a b c d : Z) :
  isByte a -> isByte b -> isByte c -> isByte d ->
  net.parseIPv4 (net.string4 [a; b; c; d]) = Some [a; b; c; d].
Proof.
  intros Ha Hb Hc Hd. unfold net.parseIPv4, net.string4.
  cbn [map strings.Join].
  rewrite <- (string_app_nil_r (strconv.FormatUint d)).
  cbn [append].
  read_octet Ha. rewrite parseIPv4Loop_dot by (auto; discriminate).
  read_octet Hb. rewrite parseIPv4Loop_dot by (auto; discriminate).
  read_octet Hc. rewrite parseIPv4Loop_dot by (auto; discriminate).
  read_octet Hd. reflexivity.
Qed.

(** *** Hexadecimal groups *)

Definition isGroup (g : Z) : Prop := 0 <= g < 65536.

Lemma hexRun_app (d : string) :
  forall rest acc off,
    allIn net.isHex d = true ->
    net.hexRun (d ++ rest) acc off
    = let '(a, o, _) := net.hexRun d acc off in net.hexRun rest a o.
Proof.
  induction d as [|c d IH]; intros rest acc off H.
  - simpl. destruct rest; reflexivity.
  - simpl in H. apply andb_true_iff in H as [Hc Hd].
    cbn [append net.hexRun]. rewrite Hc. apply IH, Hd.
Qed.

Definition groupOk (g : Z) : bool :=
  allIn net.isHex (net.appendHex g)
  && let '(a, o, _) := net.hexRun (net.appendHex g) 0 O in
     (a =? g) && (1 <=? o)%nat && (o <=? 4)%nat.

Lemma groups_checked : checkUpTo groupOk (Z.to_nat 65536) 0 = true.
Proof. vm_compute. reflexivity. Qed.

Lemma groupOk_all (g : Z) : isGroup g -> groupOk g = true.
Proof.
  intros H. apply (checkUpTo_sound _ _ _ groups_checked).
  unfold isGroup in H. rewrite Z2Nat.id by lia. lia.
Qed.

(** A text that does not go on with a hex digit. *)
Definition hexStops (rest : string) : Prop :=
  match rest with
  | EmptyString => True
  | String c _ => net.isHex c = false
  end.

Lemma hexField_group (g : Z) (rest : string) :
  isGroup g -> hexStops rest ->
  net.hexField (net.appendHex g ++ rest) = Some (g, rest).
Proof.
  intros Hg Hr. apply groupOk_all in Hg. unfold groupOk in Hg.
  apply andb_true_iff in Hg as [Hh Hv].
  unfold net.hexField. rewrite (hexRun_app _ rest 0 O Hh).
  destruct (net.hexRun (net.appendHex g) 0 O) as [[a o] r].
  apply andb_true_iff in Hv as [Hv H4]. apply andb_true_iff in Hv as [Hv H1].
  apply Z.eqb_eq in Hv. subst a.
  assert (E : net.hexRun rest g o = (g, o, rest)).
  { destruct rest as [|c rest]; [reflexivity|]. simpl in Hr. simpl.
    rewrite Hr. reflexivity. }
  rewrite E. apply Nat.leb_le in H1, H4.
  destruct (o =? 0)%nat eqn:E0; [apply Nat.eqb_eq in E0; lia|].
  destruct (4 <? o)%nat eqn:E4; [apply Nat.ltb_lt in E4; lia|].
  reflexivity.
Qed.

Lemma appendHex_hex (g : Z) :
  isGroup g -> allIn net.isHex (net.appendHex g) = true.
Proof.
  intros Hg. apply groupOk_all in Hg. unfold groupOk in Hg.
  apply andb_true_iff in Hg as [Hh _]. exact Hh.
Qed.

Lemma appendHex_cons (g : Z) :
  exists c rest, net.appendHex g = String c rest.
Proof.
  unfold net.appendHex. cbn [net.hexDigits].
  destruct (g <? 16); [eauto|].
  destruct (g / 16 <? 16); [eauto|].
  destruct (g / 16 / 16 <? 16); [eauto|].
  destruct (g / 16 / 16 / 16 <? 16); eauto.
Qed.

Definition groupBytes (gs : list Z) : list Z :=
  flat_map (fun g => [Z.shiftr g 8; Z.land g 255]) gs.

Definition hexJoin (gs : list Z) : string :=
  strings.Join (map net.appendHex gs) ":".

Lemma hexJoin_cons2 (g g2 : Z) (gs : list Z) :
  hexJoin (g :: g2 :: gs) = net.appendHex g ++ String ":" (hexJoin (g2 :: gs)).
Proof. reflexivity. Qed.

Lemma isHex_not_colon (c : ascii) :
  net.isHex c = true -> Ascii.eqb c ":" = false /\ Ascii.eqb c "." = false.
Proof.
  intros H. rewrite !eqb_byteVal.
  change (byteVal ":") with 58. change (byteVal ".") with 46.
  unfold net.isHex in H. rewrite !orb_true_iff in H.
  rewrite isDigit_iff, !inRange_iff in H.
  change (byteVal "a") with 97 in H. change (byteVal "f") with 102 in H.
  change (byteVal "A") with 65 in H. change (byteVal "F") with 70 in H.
  split; apply Z.eqb_neq; lia.
Qed.

Lemma hexJoin_cons (gs : list Z) :
  gs <> [] -> Forall isGroup gs ->
  exists c rest, hexJoin gs = String c rest /\ net.isHex c = true.
Proof.
  intros Hne Hg. destruct gs as [|g tl]; [contradiction|].
  inversion Hg as [|? ? Hg0 Htl]; subst.
  pose proof (appendHex_hex g Hg0) as Hh.
  destruct (appendHex_cons g) as (c & r & E).
  rewrite E in Hh. simpl in Hh. apply andb_true_iff in Hh as [Hc _].
  destruct tl as [|g2 tl].
  - exists c, r. split; [exact E | exact Hc].
  - rewrite hexJoin_cons2, E. cbn [append]. eauto.
Qed.

Lemma groupBytes_length (gs : list Z) :
  List.length (groupBytes gs) = (2 * List.length gs)%nat.
Proof.
  induction gs as [|g gs IH]; [reflexivity|].
  cbn [groupBytes flat_map List.length app]. fold (groupBytes gs). lia.
Qed.

Lemma groupBytes_app (a b : list Z) :
  groupBytes (a ++ b)%list = (groupBytes a ++ groupBytes b)%list.
Proof. apply flat_map_app. Qed.

(** One turn of the loop on a group followed by ':' and a hex digit. *)
Lemma loop_step (g : Z) (c : ascii) (rest : string) (fuel : nat)
      (ip : list Z) (e : option nat) :
  isGroup g -> net.isHex c = true -> (List.length ip < 16)%nat ->
  net.parseIPv6Loop (S fuel)
    (net.appendHex g ++ String ":" (String c rest)) ip e
  = net.parseIPv6Loop fuel (String c rest)
      (ip ++ [Z.shiftr g 8; Z.land g 255])%list e.
Proof.
  intros Hg Hc Hl. cbn [net.parseIPv6Loop].
  destruct (16 <=? List.length ip)%nat eqn:E;
    [apply Nat.leb_le in E; lia|].
  rewrite hexField_group by (auto; reflexivity).
  destruct (isHex_not_colon c Hc) as [Hcc _]. rewrite Hcc.
  reflexivity.
Qed.

(** The loop on groups separated by single colons. *)
Lemma loop_groups (gs : list Z) :
  forall fuel ip e,
    gs <> [] -> Forall isGroup gs ->
    (List.length gs <= fuel)%nat ->
    (List.length ip + 2 * List.length gs <= 16)%nat ->
    net.parseIPv6Loop fuel (hexJoin gs) ip e
    = Some ((ip ++ groupBytes gs)%list, e, "").
Proof.
  induction gs as [|g tl IH]; intros fuel ip e Hne Hg Hf Hl;
    [contradiction|].
  inversion Hg as [|? ? Hg0 Htl]; subst.
  destruct fuel as [|fuel]; [simpl in Hf; lia|].
  cbn [List.length] in Hf, Hl.
  destruct tl as [|g2 tl].
  - cbn [net.parseIPv6Loop].
    destruct (16 <=? List.length ip)%nat eqn:E;
      [apply Nat.leb_le in E; lia|].
    unfold hexJoin. cbn [map strings.Join].
    rewrite <- (string_app_nil_r (net.appendHex g)).
    rewrite hexField_group by (auto; exact I). reflexivity.
  - destruct (hexJoin_cons (g2 :: tl)) as (c & r & Ec & Hc);
      [discriminate | exact Htl |].
    rewrite hexJoin_cons2, Ec.
    rewrite loop_step by (auto; lia).
    rewrite <- Ec. rewrite IH.
    + cbn [groupBytes flat_map]. rewrite <- app_assoc. reflexivity.
    + discriminate.
    + exact Htl.
    + cbn [List.length] in *. lia.
    + rewrite length_app. cbn [List.length] in *. lia.
Qed.

(** The loop on groups, "::", and more groups. *)
Lemma loop_ellipsis (pre : list Z) :
  forall post fuel ip,
    pre <> [] -> Forall isGroup pre -> Forall isGroup post ->
    (List.length pre + List.length post <= fuel)%nat ->
    (List.length ip + 2 * (List.length pre + List.length post) < 16)%nat ->
    net.parseIPv6Loop fuel (hexJoin pre ++ "::" ++ hexJoin post) ip None
    = Some ((ip ++ groupBytes pre ++ groupBytes post)%list,
            Some (List.length ip + 2 * List.length pre)%nat, "").
Proof.
  induction pre as [|g tl IH]; intros post fuel ip Hne Hg Hp Hf Hl;
    [contradiction|].
  inversion Hg as [|? ? Hg0 Htl]; subst.
  destruct fuel as [|fuel]; [simpl in Hf; lia|].
  cbn [List.length] in Hf, Hl.
  destruct tl as [|g2 tl].
  - (* the last group before "::" *)
    unfold hexJoin at 1. cbn [map strings.Join].
    cbn [net.parseIPv6Loop].
    destruct (16 <=? List.length ip)%nat eqn:E;
      [apply Nat.leb_le in E; lia|].
    cbn [append].
    rewrite hexField_group by (auto; reflexivity).
    cbn [Ascii.eqb Bool.eqb negb].
    assert (L : List.length (ip ++ [Z.shiftr g 8; Z.land g 255])%list
                = (List.length ip + 2 * 1)%nat)
      by (rewrite length_app; reflexivity).
    rewrite L.
    destruct post as [|p post].
    + reflexivity.
    + destruct (hexJoin_cons (p :: post)) as (c & r & Ec & Hc);
        [discriminate | exact Hp |].
      rewrite Ec, <- Ec.
      rewrite loop_groups.
      * cbn [groupBytes flat_map app]. rewrite <- app_assoc. reflexivity.
      * discriminate.
      * exact Hp.
      * cbn [List.length] in *. lia.
      * rewrite length_app. cbn [List.length] in *. lia.
  - destruct (hexJoin_cons (g2 :: tl)) as (c & r & Ec & Hc);
      [discriminate | exact Htl |].
    rewrite hexJoin_cons2, Ec.
    rewrite string_app_assoc. cbn [append].
    rewrite loop_step by (auto; lia).
    change (String c (r ++ String ":" (String ":" (hexJoin post))))
      with (String c r ++ "::" ++ hexJoin post).
    rewrite <- Ec. rewrite IH.
    + cbn [groupBytes flat_map]. rewrite <- app_assoc.
      rewrite length_app. cbn [List.length app].
      replace (List.length ip + 2 + 2 * S (List.length tl))%nat
        with (List.length ip + 2 * S (S (List.length tl)))%nat by lia.
      reflexivity.
    + discriminate.
    + exact Htl.
    + exact Hp.
    + cbn [List.length] in *. lia.
    + rewrite length_app. cbn [List.length] in *. lia.
Qed.

(** *** The zero run *)

Lemma zeroRunLen_zeros (gs : list Z) :
  firstn (net.zeroRunLen gs) gs = List.repeat 0 (net.zeroRunLen gs)
  /\ (net.zeroRunLen gs <= List.length gs)%nat.
Proof.
  induction gs as [|g gs [IH1 IH2]]; [split; [reflexivity | simpl; lia]|].
  cbn [net.zeroRunLen]. destruct (g =? 0) eqn:E.
  - apply Z.eqb_eq in E. subst g. cbn [firstn List.repeat List.length].
    rewrite IH1. split; [reflexivity | lia].
  - split; [reflexivity | simpl; lia].
Qed.

(** A run [a, b) of [all]: not empty, within bounds, made of zeros. *)
Definition runOK (all : list Z) (best : option (nat * nat)) : Prop :=
  match best with
  | None => True
  | Some (a, b) =>
      (a < b)%nat /\ (b <= List.length all)%nat
      /\ firstn (b - a) (skipn a all) = List.repeat 0 (b - a)
  end.

Lemma skipn_cons_inv {A} (i : nat) :
  forall (l : list A) x r, skipn i l = x :: r -> skipn (S i) l = r.
Proof.
  induction i as [|i IH]; intros l x r H.
  - simpl in H. subst l. reflexivity.
  - destruct l as [|y l]; [discriminate|]. simpl in H.
    change (skipn (S (S i)) (y :: l)) with (skipn (S i) l). eauto.
Qed.

Lemma longestRun_ok (all : list Z) :
  forall gs i best,
    gs = skipn i all -> (i + List.length gs = List.length all)%nat ->
    runOK all best -> runOK all (net.longestRun i gs best).
Proof.
  induction gs as [|g rest IH]; intros i best Hs Hl Hb; [exact Hb|].
  cbn [net.longestRun]. apply IH.
  - symmetry. apply (skipn_cons_inv i all g rest). symmetry. exact Hs.
  - cbn [List.length] in Hl. lia.
  - destruct (zeroRunLen_zeros (g :: rest)) as [Hz Hle].
    set (l := net.zeroRunLen (g :: rest)) in *.
    destruct ((2 <=? l)%nat && _) eqn:E; [|exact Hb].
    apply andb_true_iff in E as [E _]. apply Nat.leb_le in E.
    unfold runOK. replace (i + l - i)%nat with l by lia.
    rewrite <- Hs. repeat split; [lia | lia | exact Hz].
Qed.

Lemma groupBytes_zeros (n : nat) :
  groupBytes (List.repeat 0 n) = net.zeros (2 * n).
Proof.
  induction n as [|n IH]; [reflexivity|].
  replace (2 * S n)%nat with (S (S (2 * n))) by lia.
  cbn [List.repeat groupBytes flat_map app net.zeros].
  fold (groupBytes (List.repeat 0 n)). rewrite IH. reflexivity.
Qed.

Lemma expand_full (ip : list Z) :
  List.length ip = 16%nat ->
  net.expandEllipsis (Some (ip, None, "")) = Some ip.
Proof. intros H. unfold net.expandEllipsis. rewrite H. reflexivity. Qed.

Lemma expand_short (front back : list Z) :
  (List.length front + List.length back < 16)%nat ->
  net.expandEllipsis
    (Some ((front ++ back)%list, Some (List.length front), ""))
  = Some (front ++ net.zeros (16 - (List.length front + List.length back))
                ++ back)%list.
Proof.
  intros H. unfold net.expandEllipsis. cbn [String.eqb negb].
  rewrite length_app.
  destruct (_ <? 16)%nat eqn:E; [|apply Nat.ltb_ge in E; lia].
  rewrite firstn_app, Nat.sub_diag, firstn_all, firstn_O, app_nil_r.
  rewrite skipn_app, Nat.sub_diag, skipn_all. reflexivity.
Qed.

(** [parseIPv6] reads back the text of eight groups. *)
Lemma parseIPv6_formatGroups (gs : list Z) :
  List.length gs = 8%nat -> Forall isGroup gs ->
  net.parseIPv6NoZone (net.formatGroups gs) = Some (groupBytes gs).
Proof.
  intros Hl Hg. unfold net.formatGroups.
  pose proof (longestRun_ok gs gs O None eq_refl eq_refl I) as Hr.
  destruct (net.longestRun O gs None) as [[a b]|].
  - destruct Hr as (Hab & Hb & Hz). rewrite Hl in Hb.
    remember (firstn a gs) as pre eqn:Dpre.
    remember (skipn b gs) as post eqn:Dpost.
    assert (D : gs = (pre ++ List.repeat 0 (b - a) ++ post)%list).
    { subst pre post. rewrite <- Hz.
      replace (skipn b gs) with (skipn (b - a) (skipn a gs))
        by (rewrite skipn_skipn; f_equal; lia).
      rewrite firstn_skipn, firstn_skipn. reflexivity. }
    assert (Lpre : List.length pre = a)
      by (subst pre; rewrite length_firstn; lia).
    assert (Lpost : List.length post = (8 - b)%nat)
      by (subst post; rewrite length_skipn; lia).
    clear Dpre Dpost Hz.
    assert (Gpre : Forall isGroup pre)
      by (rewrite D in Hg; apply Forall_app in Hg; tauto).
    assert (Gpost : Forall isGroup post).
    { rewrite D in Hg. apply Forall_app in Hg as [_ Hg].
      apply Forall_app in Hg. tauto. }
    rewrite D. rewrite !groupBytes_app, groupBytes_zeros. clear D Hg.
    fold (hexJoin pre). fold (hexJoin post).
    destruct pre as [|p0 pre'] eqn:Epre.
    + (* the address begins with the run *)
      cbn [List.length] in Lpre. subst a.
      change (hexJoin [] ++ "::" ++ hexJoin post)
        with (String ":" (String ":" (hexJoin post))).
      unfold net.parseIPv6NoZone.
      cbn [strings.HasPrefix Ascii.eqb Bool.eqb andb strings.drop].
      destruct post as [|q0 post'] eqn:Epost.
      * cbn [List.length] in Lpost.
        replace (b - 0)%nat with 8%nat by lia. reflexivity.
      * destruct (hexJoin_cons (q0 :: post')) as (c & r & Ec & Hc);
          [discriminate | exact Gpost |].
        rewrite Ec, <- Ec.
        rewrite loop_groups
          by (auto; try discriminate; cbn [List.length] in *; lia).
        pose proof (expand_short [] (groupBytes (q0 :: post'))) as X.
        cbn [List.length app Nat.add] in X.
        change ([] ++ groupBytes (q0 :: post'))%list
          with (groupBytes (q0 :: post')).
        rewrite X.
        -- rewrite groupBytes_length, Lpost.
           change (groupBytes []) with (@nil Z). cbn [app].
           replace (16 - 2 * (8 - b))%nat with (2 * (b - 0))%nat by lia.
           reflexivity.
        -- rewrite groupBytes_length. lia.
    + (* groups before the run *)
      rewrite <- Epre in *.
      assert (Hne : pre <> []) by (rewrite Epre; discriminate).
      destruct (hexJoin_cons pre Hne Gpre) as (c & r & Ec & Hc).
      unfold net.parseIPv6NoZone. rewrite Ec.
      cbn [append strings.HasPrefix].
      destruct (isHex_not_colon c Hc) as [Hcc _]. rewrite Hcc.
      cbn [andb].
      change (String c (r ++ String ":" (String ":" (hexJoin post))))
        with (String c r ++ "::" ++ hexJoin post).
      rewrite <- Ec.
      rewrite loop_ellipsis by (auto; cbn [List.length]; lia).
      cbn [app List.length Nat.add].
      pose proof (expand_short (groupBytes pre) (groupBytes post)) as X.
      rewrite !groupBytes_length in X. rewrite X by lia.
      replace (16 - (2 * List.length pre + 2 * List.length post))%nat
        with (2 * (b - a))%nat by lia.
      reflexivity.
  - (* no run: eight groups *)
    assert (Hne : gs <> []) by (intros ->; discriminate).
    destruct (hexJoin_cons gs Hne Hg) as (c & r & Ec & Hc).
    unfold net.parseIPv6NoZone. fold (hexJoin gs). rewrite Ec.
    cbn [strings.HasPrefix].
    destruct (isHex_not_colon c Hc) as [Hcc _]. rewrite Hcc. cbn [andb].
    rewrite <- Ec.
    rewrite loop_groups by (auto; cbn [List.length]; lia).
    apply expand_full. cbn [app]. rewrite groupBytes_length. lia.
Qed.

(** *** Addresses *)

(** What [ParseIP] returns when it returns an address. *)
Definition validIP (ip : net.IP) : Prop :=
  List.length ip = 16%nat /\ Forall isByte ip.

Lemma byte_pair (hi lo : Z) :
  isByte hi -> isByte lo ->
  isGroup (hi * 256 + lo)
  /\ Z.shiftr (hi * 256 + lo) 8 = hi
  /\ Z.land (hi * 256 + lo) 255 = lo.
Proof.
  unfold isByte, isGroup. intros Hh Hl. split; [lia|].
  rewrite Z.shiftr_div_pow2 by lia.
  change 255 with (Z.ones 8). rewrite Z.land_ones by lia.
  change (2 ^ 8) with 256. split.
  - rewrite Z.div_add_l by lia. rewrite Z.div_small by lia. lia.
  - rewrite Z.add_comm, Z.mod_add by lia. apply Z.mod_small. lia.
Qed.

Lemma group_bytes (g : Z) :
  isGroup g -> isByte (Z.shiftr g 8) /\ isByte (Z.land g 255).
Proof.
  unfold isByte, isGroup. intros H.
  rewrite Z.shiftr_div_pow2 by lia.
  change 255 with (Z.ones 8). rewrite Z.land_ones by lia.
  change (2 ^ 8) with 256. split.
  - split; [apply Z.div_pos; lia | apply Z.div_lt_upper_bound; lia].
  - apply Z.mod_pos_bound. lia.
Qed.

Lemma groups_bytes (n : nat) :
  forall ip,
    List.length ip = (2 * n)%nat -> Forall isByte ip ->
    groupBytes (net.groups ip) = ip
    /\ Forall isGroup (net.groups ip)
    /\ List.length (net.groups ip) = n.
Proof.
  induction n as [|n IH]; intros ip Hl Hb.
  - destruct ip; [|discriminate]. repeat split. constructor.
  - destruct ip as [|hi [|lo ip]]; try (simpl in Hl; lia).
    inversion Hb as [|? ? Hh Hb1]; subst.
    inversion Hb1 as [|? ? Hlo Hb2]; subst.
    destruct (IH ip) as (I1 & I2 & I3); [simpl in Hl; lia | exact Hb2 |].
    destruct (byte_pair hi lo Hh Hlo) as (G & S1 & S2).
    cbn [net.groups groupBytes flat_map app List.length].
    fold (groupBytes (net.groups ip)).
    rewrite S1, S2, I1, I3. repeat split. constructor; assumption.
Qed.

Definition hexOrColon (c : ascii) : bool := net.isHex c || Ascii.eqb c ":".

Lemma allIn_Join (P : ascii -> bool) (sep : string) (elems : list string) :
  Forall (fun e => allIn P e = true) elems -> allIn P sep = true ->
  allIn P (strings.Join elems sep) = true.
Proof.
  intros He Hs. induction He as [|e elems H0 He IH]; [reflexivity|].
  destruct elems as [|e2 elems]; [exact H0|].
  change (strings.Join (e :: e2 :: elems) sep)
    with (e ++ sep ++ strings.Join (e2 :: elems) sep).
  rewrite !allIn_app, H0, Hs, IH. reflexivity.
Qed.

Lemma hexJoin_class (gs : list Z) :
  Forall isGroup gs -> allIn hexOrColon (hexJoin gs) = true.
Proof.
  intros Hg. apply allIn_Join; [|reflexivity].
  apply Forall_map. eapply Forall_impl; [|exact Hg].
  intros g H. apply (allIn_weaken net.isHex); [|apply appendHex_hex, H].
  intros c Hc. unfold hexOrColon. rewrite Hc. reflexivity.
Qed.

Lemma Forall_firstn_skipn {A} (P : A -> Prop) (n : nat) (l : list A) :
  Forall P l -> Forall P (firstn n l) /\ Forall P (skipn n l).
Proof.
  intros H. rewrite <- (firstn_skipn n l) in H.
  apply Forall_app in H. exact H.
Qed.

Lemma IndexByte_app_found (x y : string) (c : ascii) :
  strings.IndexByte (x ++ String c y) c <> None.
Proof.
  induction x as [|d x IH]; cbn [append strings.IndexByte].
  - rewrite Ascii.eqb_refl. discriminate.
  - destruct (Ascii.eqb d c); [discriminate|].
    destruct (strings.IndexByte (x ++ String c y) c); [discriminate|].
    contradiction.
Qed.

(** The text of eight groups is made of hex digits and colons, and has a
    colon. *)
Lemma formatGroups_class (gs : list Z) :
  List.length gs = 8%nat -> Forall isGroup gs ->
  allIn hexOrColon (net.formatGroups gs) = true
  /\ strings.IndexByte (net.formatGroups gs) ":" <> None.
Proof.
  intros Hl Hg. unfold net.formatGroups.
  destruct (net.longestRun O gs None) as [[a b]|].
  - destruct (Forall_firstn_skipn isGroup a gs Hg) as [Ha _].
    destruct (Forall_firstn_skipn isGroup b gs Hg) as [_ Hb].
    fold (hexJoin (firstn a gs)). fold (hexJoin (skipn b gs)). split.
    + rewrite !allIn_app, !hexJoin_class by assumption. reflexivity.
    + change ("::" ++ hexJoin (skipn b gs))
        with (String ":" (String ":" (hexJoin (skipn b gs)))).
      apply IndexByte_app_found.
  - fold (hexJoin gs). split; [apply hexJoin_class, Hg|].
    destruct gs as [|g [|g2 gs]]; try discriminate.
    rewrite hexJoin_cons2. apply IndexByte_app_found.
Qed.

Lemma IndexByte_none (P : ascii -> bool) (c : ascii) (s : string) :
  (forall x, P x = true -> Ascii.eqb x c = false) ->
  allIn P s = true -> strings.IndexByte s c = None.
Proof.
  intros H. induction s as [|x s IH]; [reflexivity|].
  cbn [allIn strings.IndexByte]. intros E.
  apply andb_true_iff in E as [Ex Es].
  rewrite (H x Ex), (IH Es). reflexivity.
Qed.

Lemma LastIndexByte_none (P : ascii -> bool) (c : ascii) (s : string) :
  (forall x, P x = true -> Ascii.eqb x c = false) ->
  allIn P s = true -> strings.LastIndexByte s c = None.
Proof.
  intros H. induction s as [|x s IH]; [reflexivity|].
  cbn [allIn strings.LastIndexByte]. intros E.
  apply andb_true_iff in E as [Ex Es].
  rewrite (H x Ex), (IH Es). reflexivity.
Qed.

(** Bytes that can occur in the canonical host: hex digits, '.', ':',
    '[' and ']'. *)
Definition hostByte (c : ascii) : bool := net.isHex c || oneOf ".:[]" c.

Lemma isHex_cases (c : ascii) :
  net.isHex c = true ->
  48 <= byteVal c <= 57 \/ 97 <= byteVal c <= 102 \/ 65 <= byteVal c <= 70.
Proof.
  unfold net.isHex. rewrite !orb_true_iff, isDigit_iff, !inRange_iff.
  change (byteVal "a") with 97. change (byteVal "f") with 102.
  change (byteVal "A") with 65. change (byteVal "F") with 70.
  tauto.
Qed.

Lemma hostByte_cases (c : ascii) :
  hostByte c = true ->
  48 <= byteVal c <= 57 \/ 97 <= byteVal c <= 102 \/ 65 <= byteVal c <= 70
  \/ byteVal c = 46 \/ byteVal c = 58 \/ byteVal c = 91 \/ byteVal c = 93.
Proof.
  unfold hostByte. rewrite orb_true_iff. intros [H|H].
  - apply isHex_cases in H. tauto.
  - cbn [oneOf] in H. rewrite !orb_true_iff, !eqb_byteVal, !Z.eqb_eq in H.
    change (byteVal ".") with 46 in H. change (byteVal ":") with 58 in H.
    change (byteVal "[") with 91 in H. change (byteVal "]") with 93 in H.
    intuition discriminate.
Qed.

Lemma isDigit_isHex (c : ascii) : isDigit c = true -> net.isHex c = true.
Proof. intros H. unfold net.isHex. rewrite H. reflexivity. Qed.

Lemma isHex_not (c x : ascii) :
  net.isHex c = true ->
  byteVal x < 48 \/ 57 < byteVal x < 65 \/ 70 < byteVal x < 97
  \/ 102 < byteVal x ->
  Ascii.eqb c x = false.
Proof.
  intros H Hx. apply isHex_cases in H. rewrite eqb_byteVal.
  apply Z.eqb_neq. lia.
Qed.

Lemma parseAddr_v4 (whole : string) (d : string) :
  forall r,
    allIn isDigit d = true ->
    net.parseAddr whole (d ++ String "." r)
    = option_map (fun q => (net.v4InV6Prefix ++ q)%list)
                 (net.parseIPv4 whole).
Proof.
  induction d as [|c d IH]; intros r H.
  - reflexivity.
  - cbn [allIn] in H. apply andb_true_iff in H as [Hc Hd].
    apply isDigit_isHex in Hc.
    cbn [append net.parseAddr].
    rewrite (isHex_not c ".") by (auto; change (byteVal ".") with 46; lia).
    rewrite (isHex_not c ":") by (auto; change (byteVal ":") with 58; lia).
    rewrite (isHex_not c "%") by (auto; change (byteVal "%") with 37; lia).
    apply IH, Hd.
Qed.

Lemma parseAddr_v6 (whole : string) (s : string) :
  allIn hexOrColon s = true ->
  strings.IndexByte s ":" <> None ->
  net.parseAddr whole s = net.parseIPv6 whole.
Proof.
  induction s as [|c s IH]; intros H Hi; [contradiction|].
  cbn [allIn] in H. apply andb_true_iff in H as [Hc Hs].
  cbn [net.parseAddr]. unfold hexOrColon in Hc.
  destruct (Ascii.eqb c ":") eqn:E.
  - apply Ascii.eqb_eq in E. subst c. reflexivity.
  - rewrite orb_false_r in Hc.
    rewrite (isHex_not c ".") by (auto; change (byteVal ".") with 46; lia).
    rewrite (isHex_not c "%") by (auto; change (byteVal "%") with 37; lia).
    apply IH; [exact Hs|].
    cbn [strings.IndexByte] in Hi. rewrite E in Hi.
    destruct (strings.IndexByte s ":"); [discriminate|]. contradiction.
Qed.

Lemma hexOrColon_not_percent (x : ascii) :
  hexOrColon x = true -> Ascii.eqb x "%" = false.
Proof.
  unfold hexOrColon. rewrite orb_true_iff. intros [H|H].
  - apply isHex_not; [exact H|]. change (byteVal "%") with 37. lia.
  - apply Ascii.eqb_eq in H. subst x. reflexivity.
Qed.

(** [ParseIP] reads back what [IP.String] prints. *)
Lemma ParseIP_IPString (ip : net.IP) :
  validIP ip -> net.ParseIP (net.IPString ip) = ip.
Proof.
  intros [Hl Hb]. unfold net.IPString. rewrite Hl.
  cbn [Nat.eqb negb orb].
  destruct (net.To4 ip) as [|q0 q] eqn:E4.
  - (* not an IPv4 address: the text of the eight groups *)
    destruct (groups_bytes 8 ip Hl Hb) as (G1 & G2 & G3).
    destruct (formatGroups_class _ G3 G2) as [C1 C2].
    unfold net.ParseIP, net.string6.
    rewrite (parseAddr_v6 _ _ C1 C2). unfold net.parseIPv6.
    rewrite (IndexByte_none hexOrColon "%" _ hexOrColon_not_percent C1).
    rewrite parseIPv6_formatGroups by assumption.
    exact G1.
  - (* an IPv4 address in its 16-byte form *)
    do 16 (destruct ip as [|? ip]; [discriminate Hl|]).
    destruct ip; [|discriminate Hl].
    unfold net.To4 in E4. cbn [List.length Nat.eqb andb firstn forallb nth skipn] in E4.
    match type of E4 with
    | (if ?b then _ else _) = _ => destruct b eqn:Eb; [|discriminate E4]
    end.
    injection E4 as <- <-.
    rewrite !andb_true_iff, !Z.eqb_eq in Eb.
    destruct Eb as [[(?&?&?&?&?&?&?&?&?&?&_) ?] ?]. subst.
    repeat match goal with
           | H : Forall _ (_ :: _) |- _ => inversion H; clear H; subst
           end.
    match goal with
    | |- net.ParseIP (net.string4 [?a; ?b; ?c; ?d]) = _ =>
        pose proof (parseIPv4_string4 a b c d) as P;
        assert (D : allIn isDigit (strconv.FormatUint a) = true)
          by (apply FormatUint_digits;
              match goal with H : isByte a |- _ => apply H end)
    end.
    unfold net.ParseIP, net.string4 in *.
    cbn [map strings.Join append] in *.
    rewrite parseAddr_v4 by exact D.
    rewrite P by assumption. reflexivity.
Qed.

(** *** What [ParseIP] returns *)

Lemma digitVal_range (c : ascii) : isDigit c = true -> 0 <= digitVal c <= 9.
Proof. rewrite isDigit_iff. unfold digitVal. lia. Qed.

Lemma parseIPv4Loop_valid (s : string) :
  forall fields val digLen l,
    Forall isByte fields -> isByte val -> (List.length fields <= 3)%nat ->
    net.parseIPv4Loop s fields val digLen = Some l ->
    List.length l = 4%nat /\ Forall isByte l.
Proof.
  induction s as [|c s IH]; intros fields val digLen l Hf Hv Hl.
  - cbn [net.parseIPv4Loop].
    destruct (List.length fields <? 3)%nat eqn:E; [discriminate|].
    apply Nat.ltb_ge in E. intros [= <-]. split.
    + rewrite length_app. simpl. lia.
    + apply Forall_app. split; [exact Hf | constructor; [exact Hv | constructor]].
  - cbn [net.parseIPv4Loop]. destruct (isDigit c) eqn:Ed.
    + destruct ((digLen =? 1)%nat && (val =? 0)); [discriminate|].
      destruct (val * 10 + digitVal c >? 255) eqn:E; [discriminate|].
      apply IH; auto. pose proof (digitVal_range c Ed).
      unfold isByte in *. rewrite Z.gtb_ltb in E. apply Z.ltb_ge in E. lia.
    + destruct (Ascii.eqb c "."); [|discriminate].
      destruct (digLen =? 0)%nat; [discriminate|].
      destruct s as [|c2 s2]; [discriminate|].
      destruct (List.length fields =? 3)%nat eqn:E; [discriminate|].
      apply Nat.eqb_neq in E. apply IH.
      * apply Forall_app. split; [exact Hf | constructor; [exact Hv | constructor]].
      * unfold isByte. lia.
      * rewrite length_app. simpl. lia.
Qed.

Lemma hexVal_range (c : ascii) : net.isHex c = true -> 0 <= net.hexVal c < 16.
Proof.
  intros H. unfold net.hexVal.
  destruct (isDigit c) eqn:Ed.
  - apply isDigit_iff in Ed. lia.
  - destruct (inRange "a" "f" c) eqn:Ea.
    + apply inRange_iff in Ea.
      change (byteVal "a") with 97 in Ea. change (byteVal "f") with 102 in Ea.
      lia.
    + unfold net.isHex in H. rewrite Ed, Ea in H. cbn [orb] in H.
      apply inRange_iff in H.
      change (byteVal "A") with 65 in H. change (byteVal "F") with 70 in H.
      lia.
Qed.

Lemma hexRun_bound (s : string) :
  forall acc off a o r,
    0 <= acc < 16 ^ Z.of_nat off ->
    net.hexRun s acc off = (a, o, r) -> 0 <= a < 16 ^ Z.of_nat o.
Proof.
  induction s as [|c s IH]; intros acc off a o r Hacc.
  - intros [= <- <- <-]. exact Hacc.
  - cbn [net.hexRun]. destruct (net.isHex c) eqn:E.
    + apply IH. pose proof (hexVal_range c E).
      rewrite Nat2Z.inj_succ, Z.pow_succ_r by lia. lia.
    + intros [= <- <- <-]. exact Hacc.
Qed.

Lemma hexField_group_inv (s : string) (acc : Z) (rest : string) :
  net.hexField s = Some (acc, rest) -> isGroup acc.
Proof.
  unfold net.hexField.
  destruct (net.hexRun s 0 O) as [[a o] r] eqn:E.
  apply hexRun_bound in E; [|simpl; lia].
  destruct (o =? 0)%nat; [discriminate|].
  destruct (4 <? o)%nat eqn:E4; [discriminate|].
  apply Nat.ltb_ge in E4. intros [= <- <-]. unfold isGroup.
  assert (16 ^ Z.of_nat o <= 16 ^ 4) by (apply Z.pow_le_mono_r; lia).
  change (16 ^ 4) with 65536 in *. lia.
Qed.

Lemma parseIPv6Loop_valid (fuel : nat) :
  forall s ip e ip' e' rest,
    Forall isByte ip -> (List.length ip <= 16)%nat ->
    Nat.even (List.length ip) = true ->
    net.parseIPv6Loop fuel s ip e = Some (ip', e', rest) ->
    Forall isByte ip' /\ (List.length ip' <= 16)%nat.
Proof.
  induction fuel as [|fuel IH]; intros s ip e ip' e' rest Hb Hl He.
  - intros [= <- <- <-]. auto.
  - cbn [net.parseIPv6Loop].
    destruct (16 <=? List.length ip)%nat eqn:E16; [intros [= <- <- <-]; auto|].
    apply Nat.leb_gt in E16.
    assert (L14 : (List.length ip <= 14)%nat).
    { destruct (Nat.eq_dec (List.length ip) 15) as [E|E]; [|lia].
      rewrite E in He. discriminate. }
    destruct (net.hexField s) as [[acc r1]|] eqn:Eh; [|discriminate].
    apply hexField_group_inv in Eh. destruct (group_bytes acc Eh) as [B1 B2].
    assert (Hb' : Forall isByte (ip ++ [Z.shiftr acc 8; Z.land acc 255])%list).
    { apply Forall_app. split; [exact Hb|].
      constructor; [exact B1|]. constructor; [exact B2 | constructor]. }
    assert (Hl' : List.length (ip ++ [Z.shiftr acc 8; Z.land acc 255])%list
                  = (List.length ip + 2)%nat)
      by (rewrite length_app; reflexivity).
    assert (He' : Nat.even (List.length (ip ++ [Z.shiftr acc 8; Z.land acc 255])%list) = true).
    { rewrite Hl'. replace (List.length ip + 2)%nat with (S (S (List.length ip))) by lia.
      exact He. }
    destruct r1 as [|c r1]; [intros [= <- <- <-]; split; [exact Hb' | lia]|].
    destruct (Ascii.eqb c ".").
    + destruct (_ || _) eqn:Ec; [discriminate|].
      apply orb_false_iff in Ec as [Ec1 Ec2]. apply Nat.ltb_ge in Ec2.
      destruct (net.parseIPv4 s) as [q|] eqn:Eq; [|discriminate].
      apply parseIPv4Loop_valid in Eq as [Q1 Q2];
        [|constructor | unfold isByte; lia | simpl; lia].
      intros [= <- <- <-]. split.
      * apply Forall_app. split; assumption.
      * rewrite length_app. lia.
    + destruct (negb (Ascii.eqb c ":")); [discriminate|].
      destruct r1 as [|c2 r2]; [discriminate|].
      destruct (Ascii.eqb c2 ":").
      * destruct e; [discriminate|].
        destruct r2 as [|c3 r3]; [intros [= <- <- <-]; split; [exact Hb' | lia]|].
        apply IH; auto; lia.
      * apply IH; auto; lia.
Qed.

Lemma zeros_bytes (n : nat) : Forall isByte (net.zeros n).
Proof.
  unfold net.zeros. induction n as [|n IH]; simpl; constructor; auto.
  unfold isByte. lia.
Qed.

Lemma expandEllipsis_valid r ip :
  (forall ip' e rest, r = Some (ip', e, rest) ->
                      Forall isByte ip' /\ (List.length ip' <= 16)%nat) ->
  net.expandEllipsis r = Some ip -> validIP ip.
Proof.
  intros H. unfold net.expandEllipsis.
  destruct r as [[[ip' e] rest]|]; [|discriminate].
  destruct (H ip' e rest eq_refl) as [Hb Hl].
  destruct (negb _); [discriminate|].
  destruct (List.length ip' <? 16)%nat eqn:E.
  - apply Nat.ltb_lt in E. destruct e as [e|]; [|discriminate].
    remember (16 - List.length ip')%nat as pad eqn:Epad.
    intros [= <-]. split.
    + rewrite !length_app, length_firstn, length_skipn.
      unfold net.zeros. rewrite repeat_length. lia.
    + destruct (Forall_firstn_skipn isByte e ip' Hb) as [F1 F2].
      apply Forall_app. split; [exact F1|].
      apply Forall_app. split; [apply zeros_bytes | exact F2].
  - apply Nat.ltb_ge in E. destruct e; [discriminate|].
    intros [= <-]. split; [lia | exact Hb].
Qed.

Lemma parseIPv6NoZone_valid (s : string) (ip : net.IP) :
  net.parseIPv6NoZone s = Some ip -> validIP ip.
Proof.
  unfold net.parseIPv6NoZone.
  assert (V : forall t e r, r = net.parseIPv6Loop 8 t [] e ->
                forall ip' e' rest, r = Some (ip', e', rest) ->
                  Forall isByte ip' /\ (List.length ip' <= 16)%nat).
  { intros t e r -> ip' e' rest E.
    apply parseIPv6Loop_valid in E; auto. simpl. lia. }
  destruct (strings.HasPrefix s "::").
  - destruct (strings.drop 2 s) as [|c t].
    + intros [= <-]. split; [reflexivity | apply zeros_bytes].
    + apply expandEllipsis_valid. eapply V. reflexivity.
  - apply expandEllipsis_valid. eapply V. reflexivity.
Qed.

Lemma parseAddr_valid (whole : string) (s : string) (ip : net.IP) :
  net.parseAddr whole s = Some ip -> validIP ip.
Proof.
  induction s as [|c s IH]; [discriminate|].
  cbn [net.parseAddr]. destruct (Ascii.eqb c ".").
  - unfold net.parseIPv4.
    destruct (net.parseIPv4Loop whole [] 0 O) as [q|] eqn:E; [|discriminate].
    apply parseIPv4Loop_valid in E as [Q1 Q2];
      [|constructor | unfold isByte; lia | simpl; lia].
    intros H. injection H as <-. split.
    + unfold net.v4InV6Prefix. cbn [app List.length]. rewrite Q1. reflexivity.
    + unfold net.v4InV6Prefix. cbn [app].
      repeat (constructor; [unfold isByte; lia|]). exact Q2.
  - destruct (Ascii.eqb c ":").
    + unfold net.parseIPv6.
      destruct (strings.IndexByte whole "%").
      * destruct (String.eqb _ _); [discriminate|].
        destruct (net.parseIPv6NoZone _); discriminate.
      * apply parseIPv6NoZone_valid.
    + destruct (Ascii.eqb c "%"); [discriminate | exact IH].
Qed.

Lemma ParseIP_valid (s : string) :
  net.ParseIP s <> [] -> validIP (net.ParseIP s).
Proof.
  unfold net.ParseIP. destruct (net.parseAddr s s) as [ip|] eqn:E.
  - intros _. apply (parseAddr_valid s s ip E).
  - contradiction.
Qed.

(** *** The URL of the canonical form *)

Lemma LastIndexByte_app_last (s t : string) (c : ascii) :
  strings.LastIndexByte t c = None ->
  strings.LastIndexByte (s ++ String c t) c = Some (String.length s).
Proof.
  intros H. induction s as [|x s IH]; cbn [append strings.LastIndexByte].
  - rewrite H, Ascii.eqb_refl. reflexivity.
  - rewrite IH. reflexivity.
Qed.

Lemma take_app_length (s t : string) :
  strings.take (String.length s) (s ++ t) = s.
Proof.
  induction s as [|x s IH]; cbn [String.length append strings.take].
  - destruct t; reflexivity.
  - rewrite IH. reflexivity.
Qed.

Lemma drop_app_S (s t : string) (c : ascii) :
  strings.drop (S (String.length s)) (s ++ String c t) = t.
Proof.
  induction s as [|x s IH]; cbn [String.length append strings.drop].
  - destruct t; reflexivity.
  - exact IH.
Qed.

Lemma hostByte_not (c x : ascii) :
  hostByte c = true ->
  byteVal x < 46 \/ byteVal x = 47 \/ 58 < byteVal x < 65
  \/ 70 < byteVal x < 91 \/ byteVal x = 92 \/ 93 < byteVal x < 97
  \/ 102 < byteVal x ->
  Ascii.eqb c x = false.
Proof.
  intros H Hx. apply hostByte_cases in H. rewrite eqb_byteVal.
  apply Z.eqb_neq. lia.
Qed.

Lemma isDigit_hostByte (c : ascii) : isDigit c = true -> hostByte c = true.
Proof.
  intros H. unfold hostByte, net.isHex. rewrite H. reflexivity.
Qed.

Lemma hexOrColon_hostByte (c : ascii) :
  hexOrColon c = true -> hostByte c = true.
Proof.
  unfold hexOrColon, hostByte. rewrite !orb_true_iff. intros [H|H]; [auto|].
  right. cbn [oneOf]. rewrite H. apply orb_true_r.
Qed.

Lemma isDigit_not (c x : ascii) :
  isDigit c = true -> byteVal x < 48 \/ 57 < byteVal x ->
  Ascii.eqb c x = false.
Proof.
  intros H Hx. apply isDigit_iff in H. rewrite eqb_byteVal.
  apply Z.eqb_neq. lia.
Qed.

Lemma hostByte_no_control (s : string) :
  allIn hostByte s = true -> url.stringContainsCTLByte s = false.
Proof.
  induction s as [|c s IH]; [reflexivity|]. cbn [allIn].
  intros H. apply andb_true_iff in H as [Hc Hs].
  cbn [url.stringContainsCTLByte]. rewrite (IH Hs).
  apply hostByte_cases in Hc. rewrite !orb_false_r.
  apply orb_false_iff. split; [apply Z.ltb_ge | apply Z.eqb_neq]; lia.
Qed.

Lemma hostByte_unescaped (c : ascii) :
  hostByte c = true -> url.shouldEscapeHost c = false.
Proof.
  intros H. unfold url.shouldEscapeHost. apply negb_false_iff.
  unfold hostByte in H. apply orb_true_iff in H as [H|H].
  - assert (A : isAlnum c = true); [|rewrite A; reflexivity].
    unfold isAlnum, isAlpha, isLower, isUpper.
    apply isHex_cases in H. rewrite !orb_true_iff, isDigit_iff, !inRange_iff.
    change (byteVal "a") with 97. change (byteVal "z") with 122.
    change (byteVal "A") with 65. change (byteVal "Z") with 90. lia.
  - cbn [oneOf] in H. rewrite !orb_true_iff, !Ascii.eqb_eq in H.
    destruct H as [->|[->|[->|[->|H]]]]; try reflexivity. discriminate.
Qed.

Lemma unescape_host (s : string) :
  allIn hostByte s = true -> url.unescape url.encodeHost s = Some s.
Proof.
  induction s as [|c s IH]; [reflexivity|]. cbn [allIn].
  intros H. apply andb_true_iff in H as [Hc Hs].
  cbn [url.unescape].
  rewrite (hostByte_not c "%") by (auto; change (byteVal "%") with 37; lia).
  rewrite (hostByte_unescaped c Hc), andb_false_r.
  rewrite (IH Hs). reflexivity.
Qed.

Lemma Index_percent_none (s : string) :
  allIn hostByte s = true -> strings.Index s "%25" = -1.
Proof.
  induction s as [|c s IH]; [reflexivity|]. cbn [allIn].
  intros H. apply andb_true_iff in H as [Hc Hs].
  cbn [strings.Index strings.HasPrefix].
  rewrite (hostByte_not c "%") by (auto; change (byteVal "%") with 37; lia).
  cbn [andb]. rewrite (IH Hs). reflexivity.
Qed.

Lemma validOptionalPort_digits (port : string) :
  allIn isDigit port = true -> url.validOptionalPort (String ":" port) = true.
Proof.
  intros H. cbn [url.validOptionalPort Ascii.eqb Bool.eqb andb].
  induction port as [|c p IH]; [reflexivity|].
  cbn [allIn] in H. apply andb_true_iff in H as [Hc Hp].
  rewrite Hc. exact (IH Hp).
Qed.

(** The two shapes of the host in the canonical form: a dotted quad, or a
    bracketed text of hex digits and colons. *)
Definition canonicalHost (pre host : string) : Prop :=
  (pre = host /\ allIn hostByte host = true
   /\ strings.HasPrefix host "[" = false)
  \/ (pre = "[" ++ host ++ "]" /\ allIn hexOrColon host = true).

Lemma canonicalHost_class (pre host : string) :
  canonicalHost pre host -> allIn hostByte pre = true.
Proof.
  intros [(-> & H & _)|(-> & H)]; [exact H|].
  cbn [append allIn]. rewrite allIn_app. cbn [allIn].
  rewrite (allIn_weaken _ _ _ hexOrColon_hostByte H). reflexivity.
Qed.

Lemma digits_no (x : ascii) (port : string) :
  byteVal x < 48 \/ 57 < byteVal x ->
  allIn isDigit port = true ->
  strings.LastIndexByte port x = None /\ strings.IndexByte port x = None.
Proof.
  intros Hx H. split.
  - apply (LastIndexByte_none isDigit); [|exact H].
    intros c Hc. apply isDigit_not; assumption.
  - apply (IndexByte_none isDigit); [|exact H].
    intros c Hc. apply isDigit_not; assumption.
Qed.

Lemma splitHostPort_canonical (pre host port : string) :
  canonicalHost pre host -> allIn isDigit port = true ->
  url.splitHostPort (pre ++ ":" ++ port) = (host, port).
Proof.
  intros Hc Hp. unfold url.splitHostPort.
  destruct (digits_no ":" port) as [L _];
    [change (byteVal ":") with 58; lia | exact Hp |].
  cbn [append]. rewrite (LastIndexByte_app_last pre port ":" L).
  rewrite drop_app, (validOptionalPort_digits port Hp).
  rewrite take_app_length.
  change (String ":" port) with (":" ++ port).
  rewrite <- string_app_assoc.
  replace (S (String.length pre)) with (String.length (pre ++ ":"))
    by (rewrite string_length_app; simpl; lia).
  rewrite drop_app.
  destruct Hc as [(-> & _ & Hb)|(-> & Hh)].
  - rewrite Hb. reflexivity.
  - cbn [append strings.HasPrefix Ascii.eqb Bool.eqb andb].
    assert (Sfx : strings.HasSuffix (String "[" (host ++ "]")) "]" = true).
    { apply HasSuffix_endsWith. exists (String "[" host). reflexivity. }
    rewrite Sfx. cbn [String.length strings.drop].
    rewrite string_length_app. cbn [String.length].
    replace (S (String.length host + 1) - 2)%nat with (String.length host)
      by lia.
    rewrite take_app_length. reflexivity.
Qed.

Lemma parseHost_canonical (pre host port : string) :
  canonicalHost pre host -> allIn isDigit port = true ->
  url.parseHost (pre ++ ":" ++ port) = inl (pre ++ ":" ++ port).
Proof.
  intros Hc Hp.
  assert (Ca : allIn hostByte (pre ++ ":" ++ port) = true).
  { rewrite allIn_app, (canonicalHost_class _ _ Hc). cbn [append allIn].
    rewrite (allIn_weaken _ _ _ isDigit_hostByte Hp). reflexivity. }
  unfold url.parseHost. rewrite (unescape_host _ Ca).
  destruct Hc as [(-> & Hh & Hb)|(-> & Hh)].
  - assert (Hb' : strings.HasPrefix (host ++ ":" ++ port) "[" = false).
    { destruct host as [|c host]; [reflexivity|]. exact Hb. }
    rewrite Hb'.
    destruct (digits_no ":" port) as [L _];
      [change (byteVal ":") with 58; lia | exact Hp |].
    cbn [append]. rewrite (LastIndexByte_app_last host port ":" L).
    rewrite drop_app, (validOptionalPort_digits port Hp). reflexivity.
  - assert (L : strings.LastIndexByte (String ":" port) "]" = None).
    { cbn [strings.LastIndexByte].
      destruct (digits_no "]" port) as [L _];
        [change (byteVal "]") with 93; lia | exact Hp |].
      rewrite L. reflexivity. }
    assert (E : ("[" ++ host ++ "]") ++ ":" ++ port
                = String "[" host ++ String "]" (String ":" port)).
    { cbn [append]. rewrite string_app_assoc. reflexivity. }
    rewrite E.
    assert (HP : strings.HasPrefix
                   (String "[" host ++ String "]" (String ":" port)) "["
                 = true) by reflexivity.
    rewrite HP, (LastIndexByte_app_last _ _ "]" L).
    rewrite drop_app_S, (validOptionalPort_digits port Hp). cbn [negb].
    rewrite take_app_length, Index_percent_none.
    + reflexivity.
    + cbn [allIn]. rewrite (allIn_weaken _ _ _ hexOrColon_hostByte Hh).
      reflexivity.
Qed.

Lemma IndexByte_app_none (a b : string) (c : ascii) :
  strings.IndexByte a c = None -> strings.IndexByte b c = None ->
  strings.IndexByte (a ++ b) c = None.
Proof.
  intros Ha Hb. induction a as [|x a IH]; [exact Hb|].
  cbn [append strings.IndexByte] in *.
  destruct (Ascii.eqb x c); [discriminate|].
  destruct (strings.IndexByte a c); [discriminate|].
  rewrite IH; reflexivity.
Qed.

Lemma hostByte_no (x : ascii) (s : string) :
  byteVal x < 46 \/ byteVal x = 47 \/ 58 < byteVal x < 65
  \/ 70 < byteVal x < 91 \/ byteVal x = 92 \/ 93 < byteVal x < 97
  \/ 102 < byteVal x ->
  allIn hostByte s = true ->
  strings.IndexByte s x = None /\ strings.LastIndexByte s x = None.
Proof.
  intros Hx H. split.
  - apply (IndexByte_none hostByte); [|exact H].
    intros c Hc. apply hostByte_not; assumption.
  - apply (LastIndexByte_none hostByte); [|exact H].
    intros c Hc. apply hostByte_not; assumption.
Qed.

Lemma CTL_app (a b : string) :
  url.stringContainsCTLByte (a ++ b)
  = url.stringContainsCTLByte a || url.stringContainsCTLByte b.
Proof.
  induction a as [|x a IH]; [reflexivity|].
  cbn [append url.stringContainsCTLByte]. rewrite IH.
  rewrite !orb_assoc. reflexivity.
Qed.

Lemma Parse_canonical (pre host port : string) :
  canonicalHost pre host -> allIn isDigit port = true ->
  url.Parse ("udp://" ++ pre ++ ":" ++ port)
  = inl (url.mkURL "udp" (pre ++ ":" ++ port)).
Proof.
  intros Hc Hp.
  pose proof (parseHost_canonical pre host port Hc Hp) as PH.
  assert (Ca : allIn hostByte (pre ++ ":" ++ port) = true).
  { rewrite allIn_app, (canonicalHost_class _ _ Hc). cbn [append allIn].
    rewrite (allIn_weaken _ _ _ isDigit_hostByte Hp). reflexivity. }
  set (X := pre ++ ":" ++ port) in *. clearbody X.
  destruct (hostByte_no "#" X) as [N1 _];
    [change (byteVal "#") with 35; lia | exact Ca |].
  destruct (hostByte_no "?" X) as [N2 _];
    [change (byteVal "?") with 63; lia | exact Ca |].
  destruct (hostByte_no "/" X) as [N3 _];
    [change (byteVal "/") with 47; lia | exact Ca |].
  destruct (hostByte_no "@" X) as [_ N4];
    [change (byteVal "@") with 64; lia | exact Ca |].
  unfold url.Parse, strings.Cut.
  rewrite (IndexByte_app_none "udp://" X "#" eq_refl N1).
  unfold url.parse.
  rewrite CTL_app, (hostByte_no_control X Ca).
  change (url.stringContainsCTLByte "udp://") with false. cbn [orb].
  change (String.eqb ("udp://" ++ X) "*") with false.
  change (url.scanScheme true ("udp://" ++ X))
    with (url.HasScheme "udp" ("//" ++ X)).
  cbv beta iota.
  change (strings.ToLower "udp") with "udp".
  assert (C : fst (strings.Cut ("//" ++ X) "?") = "//" ++ X).
  { unfold strings.Cut.
    rewrite (IndexByte_app_none "//" X "?" eq_refl N2). reflexivity. }
  rewrite C.
  change (strings.HasPrefix ("//" ++ X) "/") with true.
  change (strings.HasPrefix ("//" ++ X) "//") with true.
  change (strings.drop 2 ("//" ++ X)) with X.
  cbn [negb andb orb String.eqb].
  rewrite N3. unfold url.parseAuthority. rewrite N4, PH.
  reflexivity.
Qed.

(** A dotted quad as the host of the canonical form. *)
Lemma string4_canonical (a b c d : Z) :
  isByte a -> isByte b -> isByte c -> isByte d ->
  canonicalHost (net.string4 [a; b; c; d]) (net.string4 [a; b; c; d])
  /\ strings.IndexByte (net.string4 [a; b; c; d]) ":" = None.
Proof.
  intros Ha Hb Hc Hd.
  assert (D : forall x, isByte x ->
                allIn (fun c => isDigit c || Ascii.eqb c ".")
                      (strconv.FormatUint x) = true).
  { intros x Hx. apply (allIn_weaken isDigit).
    - intros y Hy. rewrite Hy. reflexivity.
    - apply FormatUint_digits, Hx. }
  assert (A : allIn (fun c => isDigit c || Ascii.eqb c ".")
                    (net.string4 [a; b; c; d]) = true).
  { unfold net.string4. cbn [map strings.Join].
    rewrite !allIn_app, !D by assumption. reflexivity. }
  assert (W : forall y, (isDigit y || Ascii.eqb y ".") = true ->
                        hostByte y = true).
  { intros y Hy. apply orb_true_iff in Hy as [Hy|Hy].
    - apply isDigit_hostByte, Hy.
    - apply Ascii.eqb_eq in Hy. subst y. reflexivity. }
  split.
  - left. split; [reflexivity|]. split; [apply (allIn_weaken _ _ _ W A)|].
    unfold net.string4. cbn [map strings.Join].
    destruct (FormatUint_cons a) as (y & r & E).
    pose proof (FormatUint_digits a ltac:(apply Ha)) as Dy.
    rewrite E in *. cbn [allIn] in Dy. apply andb_true_iff in Dy as [Dy _].
    cbn [append strings.HasPrefix].
    rewrite (isDigit_not y "[") by (auto; change (byteVal "[") with 91; lia).
    reflexivity.
  - apply (IndexByte_none (fun c => isDigit c || Ascii.eqb c ".")); [|exact A].
    intros y Hy. apply orb_true_iff in Hy as [Hy|Hy].
    + apply isDigit_not; [exact Hy|]. change (byteVal ":") with 58. lia.
    + apply Ascii.eqb_eq in Hy. subst y. reflexivity.
Qed.

Lemma JoinHostPort_canonical (ip : net.IP) (port : string) :
  validIP ip ->
  exists pre,
    canonicalHost pre (net.IPString ip)
    /\ net.JoinHostPort (net.IPString ip) port = pre ++ ":" ++ port.
Proof.
  intros [Hl Hb]. unfold net.IPString. rewrite Hl.
  cbn [Nat.eqb negb orb].
  destruct (net.To4 ip) as [|q0 q] eqn:E4.
  - destruct (groups_bytes 8 ip Hl Hb) as (G1 & G2 & G3).
    destruct (formatGroups_class _ G3 G2) as [C1 C2].
    exists ("[" ++ net.string6 ip ++ "]"). unfold net.string6. split.
    + right. split; [reflexivity | exact C1].
    + unfold net.JoinHostPort.
      destruct (strings.IndexByte (net.formatGroups (net.groups ip)) ":");
        [|contradiction].
      cbn [append]. rewrite string_app_assoc. reflexivity.
  - do 16 (destruct ip as [|? ip]; [discriminate Hl|]).
    destruct ip; [|discriminate Hl].
    unfold net.To4 in E4.
    cbn [List.length Nat.eqb andb firstn forallb nth skipn] in E4.
    match type of E4 with
    | (if ?b then _ else _) = _ => destruct b; [|discriminate E4]
    end.
    injection E4 as <- <-.
    repeat match goal with
           | H : Forall _ (_ :: _) |- _ => inversion H; clear H; subst
           end.
    match goal with
    | |- context [net.string4 [?a; ?b; ?c; ?d]] =>
        destruct (string4_canonical a b c d) as [K1 K2]; try assumption
    end.
    eexists. split; [exact K1|].
    unfold net.JoinHostPort. rewrite K2. reflexivity.
Qed.

(** The canonical form of a descriptor parses back to the descriptor. *)
Lemma String_reparse (ip : net.IP) (port : Z) :
  validIP ip -> 0 <= port <= strconv.maxInt ->
  ParseDnsServer (DnsServer.String (DnsServer.mk "udp" ip port))
  = Ok (DnsServer.mk "udp" ip port).
Proof.
  intros Hip Hport.
  destruct (Atoi_Itoa port Hport) as (A1 & A2 & A3).
  destruct (JoinHostPort_canonical ip (strconv.Itoa port) Hip)
    as (pre & Hc & Ej).
  unfold DnsServer.String, DnsServer.Addr.
  cbn [DnsServer.Network DnsServer.IP DnsServer.Port]. rewrite Ej.
  change ("udp" ++ "://" ++ pre ++ ":" ++ strconv.Itoa port)
    with ("udp://" ++ pre ++ ":" ++ strconv.Itoa port).
  unfold ParseDnsServer. rewrite withScheme_prefixed.
  rewrite (Parse_canonical pre _ _ Hc A2).
  cbn [url.Scheme]. change (String.eqb "udp" "udp") with true. cbn [negb].
  unfold url.Hostname, url.Port. cbn [url.Host].
  rewrite (splitHostPort_canonical pre _ _ Hc A2). cbn [fst snd].
  rewrite (ParseIP_IPString ip Hip).
  destruct Hip as [Hl _]. rewrite Hl. cbn [Nat.eqb].
  destruct (strconv.Itoa port) as [|c r] eqn:E; [contradiction|].
  cbn [String.length Nat.eqb]. rewrite A1. reflexivity.
Qed.

Lemma drop_S (k : nat) :
  forall s,
    strings.drop (S k) s
    = match strings.drop k s with
      | EmptyString => EmptyString
      | String _ r => r
      end.
Proof.
  induction k as [|k IH]; intros s.
  - destruct s as [|c s]; [reflexivity|]. destruct s; reflexivity.
  - destruct s as [|c s]; [reflexivity|].
    change (strings.drop (S (S k)) (String c s)) with (strings.drop (S k) s).
    change (strings.drop (S k) (String c s)) with (strings.drop k s).
    apply IH.
Qed.

Lemma validOptionalPort_inv (s : string) :
  url.validOptionalPort s = true ->
  match s with
  | EmptyString => True
  | String _ r => allIn isDigit r = true
  end.
Proof.
  destruct s as [|c r]; [trivial|]. cbn [url.validOptionalPort].
  intros H. apply andb_true_iff in H as [_ H].
  induction r as [|d r IH]; [reflexivity|].
  apply andb_true_iff in H as [Hd Hr]. cbn [allIn]. rewrite Hd.
  exact (IH Hr).
Qed.

(** The port of a parsed URL is a string of digits. *)
Lemma Port_digits (u : url.URL) : allIn isDigit (url.Port u) = true.
Proof.
  unfold url.Port, url.splitHostPort.
  destruct (strings.LastIndexByte (url.Host u) ":") as [colon|].
  - destruct (url.validOptionalPort (strings.drop colon (url.Host u))) eqn:E.
    + apply validOptionalPort_inv in E.
      assert (D : allIn isDigit (strings.drop (S colon) (url.Host u)) = true).
      { rewrite drop_S.
        destruct (strings.drop colon (url.Host u)); [reflexivity | exact E]. }
      destruct (_ && _); exact D.
    + destruct (_ && _); reflexivity.
  - destruct (_ && _); reflexivity.
Qed.

Lemma digitsValue_nonneg (s : string) :
  forall acc v, 0 <= acc -> strconv.digitsValue s acc = Some v -> 0 <= v.
Proof.
  induction s as [|c s IH]; intros acc v Ha.
  - intros [= <-]. exact Ha.
  - cbn [strconv.digitsValue]. destruct (isDigit c) eqn:E; [|discriminate].
    apply IH. pose proof (digitVal_range c E). lia.
Qed.

Lemma Atoi_digits_range (s : string) (n : Z) :
  allIn isDigit s = true -> strconv.Atoi s = inl n ->
  0 <= n <= strconv.maxInt.
Proof.
  intros Hd. unfold strconv.Atoi.
  destruct s as [|c r]; [discriminate|].
  cbn [allIn] in Hd. apply andb_true_iff in Hd as [Hc Hr].
  assert (N1 : c <> "-"%char)
    by (intros ->; apply isDigit_iff in Hc;
        change (byteVal "-") with 45 in Hc; lia).
  assert (N2 : c <> "+"%char)
    by (intros ->; apply isDigit_iff in Hc;
        change (byteVal "+") with 43 in Hc; lia).
  replace (match String c r with
           | String "-" rest => (true, rest)
           | String "+" rest => (false, rest)
           | _ => (false, String c r)
           end) with (false, String c r)
    by (destruct c as [[] [] [] [] [] [] [] []]; try reflexivity; congruence).
  destruct (strconv.digitsValue (String c r) 0) as [v|] eqn:E; [|discriminate].
  apply digitsValue_nonneg in E; [|lia].
  destruct (_ && _) eqn:R; [|discriminate].
  intros [= <-]. apply andb_true_iff in R as [_ R]. apply Z.leb_le in R. lia.
Qed.

(** What [ParseDnsServer] returns when it succeeds. *)
Lemma ParseDnsServer_ok (v : string) (s : DnsServer.t) :
  ParseDnsServer v = Ok s ->
  DnsServer.Network s = "udp"
  /\ validIP (DnsServer.IP s)
  /\ 0 <= DnsServer.Port s <= strconv.maxInt.
Proof.
  unfold ParseDnsServer.
  destruct (url.Parse (withScheme v)) as [u|e]; [|discriminate].
  destruct (String.eqb (url.Scheme u) "udp") eqn:Es; [|discriminate].
  apply String.eqb_eq in Es. cbn [negb].
  destruct (List.length (net.ParseIP (url.Hostname u)) =? 0)%nat eqn:El;
    [discriminate|].
  assert (V : validIP (net.ParseIP (url.Hostname u))).
  { apply ParseIP_valid. intros E. rewrite E in El. discriminate. }
  destruct (String.length (url.Port u) =? 0)%nat.
  - intros [= <-]. cbn [DnsServer.Network DnsServer.IP DnsServer.Port].
    split; [exact Es|]. split; [exact V|]. unfold strconv.maxInt. lia.
  - destruct (strconv.Atoi (url.Port u)) as [port|] eqn:Ea; [|discriminate].
    intros [= <-]. cbn [DnsServer.Network DnsServer.IP DnsServer.Port].
    split; [exact Es|]. split; [exact V|].
    apply (Atoi_digits_range _ _ (Port_digits u) Ea).
Qed.

(** C10.  Every descriptor that [ParseDnsServer] produces is read back
    from its canonical string: parsing [String()] succeeds and gives the
    same network, the same address and the same port. *)
Theorem ParseDnsServer_round_trip :
  forall v s,
    ParseDnsServer v = Ok s ->
    ParseDnsServer (DnsServer.String s) = Ok s.
Proof.
  intros v s H. apply ParseDnsServer_ok in H as (Hn & Hip & Hp).
  destruct s as [network ip port].
  cbn [DnsServer.Network DnsServer.IP DnsServer.Port] in Hn, Hip, Hp.
  subst network.
  apply String_reparse; assumption.
Qed.

(** C10 at 8.8.8.8, and at an IPv6 server with a port of its own. *)
Lemma ParseDnsServer_round_trip_witness :
  ParseDnsServer (DnsServer.String (udp 8 8 8 8 53)) = Ok (udp 8 8 8 8 53).
Proof.
  apply (ParseDnsServer_round_trip "8.8.8.8"). vm_compute. reflexivity.
Defined.

Example round_trip_ipv6 :
  DnsServer.String
    (DnsServer.mk "udp" [32; 1; 13; 184; 0; 0; 0; 0; 0; 0; 0; 0; 0; 0; 0; 1]
                  5353)
  = "udp://[2001:db8::1]:5353"
  /\ ParseDnsServer "udp://[2001:db8::1]:5353"
     = Ok (DnsServer.mk "udp"
             [32; 1; 13; 184; 0; 0; 0; 0; 0; 0; 0; 0; 0; 0; 0; 1] 5353).
Proof. split; vm_compute; reflexivity. Qed.

(** * Further properties of the package *)

(** ** The parser on whole values *)

(** A scheme as [getScheme] accepts it: a letter, then letters, digits,
    '+', '-' and '.'. *)
Definition schemeByte (c : ascii) : bool :=
  isAlpha c || isDigit c || oneOf "+-." c.

Definition validScheme (sch : string) : bool :=
  match sch with
  | EmptyString => false
  | String c rest => isAlpha c && allIn schemeByte rest
  end.

Lemma scanScheme_tail (sch : string) :
  forall t,
    allIn schemeByte sch = true ->
    url.scanScheme false (sch ++ String ":" t) = url.HasScheme sch t.
Proof.
  induction sch as [|c sch IH]; intros t H.
  - reflexivity.
  - cbn [allIn] in H. apply andb_true_iff in H as [Hc Hs].
    cbn [append url.scanScheme]. rewrite (IH t Hs).
    unfold schemeByte in Hc.
    destruct (isAlpha c); [reflexivity|].
    cbn [orb] in Hc. rewrite Hc. reflexivity.
Qed.

Lemma scanScheme_valid (sch t : string) :
  validScheme sch = true ->
  url.scanScheme true (sch ++ String ":" t) = url.HasScheme sch t.
Proof.
  destruct sch as [|c sch]; [discriminate|]. cbn [validScheme].
  intros H. apply andb_true_iff in H as [Hc Hs].
  cbn [append url.scanScheme]. rewrite (scanScheme_tail sch t Hs), Hc.
  reflexivity.
Qed.

(** The scheme of a parsed URL is the one [getScheme] found before the
    fragment, in lower case. *)
Lemma Parse_scheme (raw : string) (u : url.URL) :
  url.Parse raw = inl u ->
  url.Scheme u
  = match url.scanScheme true (fst (strings.Cut raw "#")) with
    | url.HasScheme sc _ => strings.ToLower sc
    | _ => EmptyString
    end
  \/ fst (strings.Cut raw "#") = "*".
Proof.
  unfold url.Parse. destruct (strings.Cut raw "#") as [pre frag].
  cbn [fst]. unfold url.parse.
  destruct (url.stringContainsCTLByte pre); [discriminate|].
  destruct (String.eqb pre "*") eqn:Estar;
    [apply String.eqb_eq in Estar; auto|].
  intros H. left.
  destruct (url.scanScheme true pre) as [| |sc r]; [|discriminate|];
    cbv beta iota in H;
    repeat match type of H with
           | context [if ?b then _ else _] => destruct b
           | context [strings.IndexByte ?x ?c] =>
               destruct (strings.IndexByte x c)
           | context [url.parseAuthority ?x] => destruct (url.parseAuthority x)
           end;
    try discriminate; injection H as <-; reflexivity.
Qed.

Lemma HasPrefix_app (sub b : string) : strings.HasPrefix (sub ++ b) sub = true.
Proof.
  induction sub as [|c sub IH]; [reflexivity|].
  cbn [append strings.HasPrefix]. rewrite Ascii.eqb_refl, IH. reflexivity.
Qed.

Lemma Index_app_found (a sub b : string) :
  0 <= strings.Index (a ++ sub ++ b) sub.
Proof.
  induction a as [|c a IH].
  - cbn [append]. destruct (sub ++ b) as [|x t] eqn:E;
      cbn [strings.Index]; rewrite <- E, HasPrefix_app; lia.
  - cbn [append strings.Index].
    destruct (strings.HasPrefix (String c (a ++ sub ++ b)) sub); [lia|].
    destruct (strings.Index (a ++ sub ++ b) sub <? 0) eqn:E;
      [apply Z.ltb_lt in E; lia | lia].
Qed.

Lemma Cut_cons (x c : ascii) (s : string) :
  Ascii.eqb x c = false ->
  fst (strings.Cut (String x s) c) = String x (fst (strings.Cut s c)).
Proof.
  intros H. unfold strings.Cut. cbn [strings.IndexByte]. rewrite H.
  destruct (strings.IndexByte s c); reflexivity.
Qed.

Lemma Cut_app (a b : string) (c : ascii) :
  strings.IndexByte a c = None ->
  fst (strings.Cut (a ++ b) c) = a ++ fst (strings.Cut b c).
Proof.
  induction a as [|x a IH]; intros H; [reflexivity|].
  cbn [strings.IndexByte] in H.
  destruct (Ascii.eqb x c) eqn:E; [discriminate|].
  destruct (strings.IndexByte a c); [discriminate|].
  cbn [append]. rewrite (Cut_cons x c _ E), IH; reflexivity.
Qed.

Lemma schemeByte_not_hash (c : ascii) :
  schemeByte c = true -> Ascii.eqb c "#" = false.
Proof.
  unfold schemeByte, isAlpha, isLower, isUpper.
  rewrite !orb_true_iff, isDigit_iff, !inRange_iff. cbn [oneOf].
  rewrite !orb_true_iff, !eqb_byteVal, !Z.eqb_eq.
  change (byteVal "a") with 97. change (byteVal "z") with 122.
  change (byteVal "A") with 65. change (byteVal "Z") with 90.
  change (byteVal "+") with 43. change (byteVal "-") with 45.
  change (byteVal ".") with 46. change (byteVal "#") with 35.
  intros H. apply Z.eqb_neq.
  destruct H as [[[H|H]|H]|[H|[H|[H|H]]]]; try lia; discriminate.
Qed.

Lemma validScheme_class (sch : string) :
  validScheme sch = true -> allIn schemeByte sch = true.
Proof.
  destruct sch as [|c sch]; [discriminate|]. cbn [validScheme allIn].
  intros H. apply andb_true_iff in H as [Hc Hs].
  rewrite Hs. unfold schemeByte. rewrite Hc. reflexivity.
Qed.

(** X1.  A value "<scheme>://<rest>" whose scheme is well formed and is
    not udp, in any case of letters, does not parse, whatever follows. *)
Theorem foreign_scheme_rejected (sch rest : string) :
  validScheme sch = true -> strings.ToLower sch <> "udp" ->
  exists e, ParseDnsServer (sch ++ "://" ++ rest) = Err e.
Proof.
  intros Hv Hs. unfold ParseDnsServer, withScheme.
  destruct (strings.Index (sch ++ "://" ++ rest) "://" <? 0) eqn:E.
  { apply Z.ltb_lt in E. pose proof (Index_app_found sch "://" rest). lia. }
  destruct (url.Parse (sch ++ "://" ++ rest)) as [u|e] eqn:P; [|eauto].
  assert (S : url.Scheme u = strings.ToLower sch).
  { apply Parse_scheme in P.
    assert (C : fst (strings.Cut (sch ++ "://" ++ rest) "#")
                = sch ++ String ":" ("//" ++ fst (strings.Cut rest "#"))).
    { rewrite Cut_app.
      - cbn [append]. rewrite !Cut_cons by reflexivity. reflexivity.
      - apply (IndexByte_none schemeByte);
          [exact schemeByte_not_hash | apply validScheme_class, Hv]. }
    rewrite C in P. rewrite (scanScheme_valid _ _ Hv) in P.
    destruct P as [P|P]; [exact P|].
    destruct sch as [|c [|c2 sch]]; discriminate. }
  rewrite S. apply String.eqb_neq in Hs. rewrite Hs. cbn [negb]. eauto.
Qed.

Lemma foreign_scheme_rejected_witness :
  exists e, ParseDnsServer "TCP://1.1.1.1:53" = Err e.
Proof.
  apply (foreign_scheme_rejected "TCP" "1.1.1.1:53");
    [reflexivity | discriminate].
Defined.

(** X2.  A descriptor that [ParseDnsServer] returns has the network "udp",
    an address in the 16-byte form with every byte in range, and a port
    between 0 and the largest [int]: the port is not held to 16 bits. *)
Theorem parsed_server_shape :
  forall v s,
    ParseDnsServer v = Ok s ->
    DnsServer.Network s = "udp"
    /\ List.length (DnsServer.IP s) = 16%nat
    /\ Forall (fun b => 0 <= b < 256) (DnsServer.IP s)
    /\ 0 <= DnsServer.Port s <= 9223372036854775807.
Proof.
  intros v s H. apply ParseDnsServer_ok in H as (Hn & [Hl Hb] & Hp).
  repeat split; try assumption; apply Hp.
Qed.

Lemma parsed_server_shape_witness :
  DnsServer.Network (DnsServer.mk "udp" (net.zeros 15 ++ [1])%list 99999)
  = "udp"
  /\ List.length (net.zeros 15 ++ [1])%list = 16%nat
  /\ Forall (fun b => 0 <= b < 256) (net.zeros 15 ++ [1])%list
  /\ 0 <= 99999 <= 9223372036854775807.
Proof.
  apply (parsed_server_shape "[::1]:99999"
           (DnsServer.mk "udp" (net.zeros 15 ++ [1])%list 99999)).
  vm_compute. reflexivity.
Defined.

Lemma hostByte_no_scheme_mark (s : string) :
  allIn hostByte s = true -> strings.Index s "://" = -1.
Proof.
  induction s as [|c s IH]; [reflexivity|]. cbn [allIn].
  intros H. apply andb_true_iff in H as [Hc Hs].
  cbn [strings.Index strings.HasPrefix].
  assert (P : strings.HasPrefix s "/" = false).
  { destruct s as [|x s]; [reflexivity|]. cbn [allIn] in Hs.
    apply andb_true_iff in Hs as [Hx _]. cbn [strings.HasPrefix].
    rewrite (hostByte_not x "/")
      by (auto; change (byteVal "/") with 47; lia).
    reflexivity. }
  destruct s as [|x s].
  - rewrite andb_false_r. reflexivity.
  - cbn [strings.HasPrefix] in P |- *.
    destruct (Ascii.eqb x "/"); [discriminate P|].
    rewrite andb_false_r. rewrite (IH Hs). reflexivity.
Qed.

(** X3.  The address form of a parsed descriptor, "<ip>:<port>" with an
    IPv6 address in brackets and no scheme, parses to that descriptor. *)
Theorem Addr_reparse :
  forall v s,
    ParseDnsServer v = Ok s ->
    ParseDnsServer (DnsServer.Addr s) = Ok s.
Proof.
  intros v s H. apply ParseDnsServer_ok in H as (Hn & Hip & Hp).
  destruct s as [network ip port].
  cbn [DnsServer.Network DnsServer.IP DnsServer.Port] in Hn, Hip, Hp.
  subst network.
  transitivity
    (ParseDnsServer (DnsServer.String (DnsServer.mk "udp" ip port)));
    [|apply String_reparse; assumption].
  destruct (Atoi_Itoa port Hp) as (_ & A2 & _).
  destruct (JoinHostPort_canonical ip (strconv.Itoa port) Hip)
    as (pre & Hc & Ej).
  unfold DnsServer.String, DnsServer.Addr.
  cbn [DnsServer.Network DnsServer.IP DnsServer.Port]. rewrite Ej.
  assert (Ca : allIn hostByte (pre ++ ":" ++ strconv.Itoa port) = true).
  { rewrite allIn_app, (canonicalHost_class _ _ Hc). cbn [append allIn].
    rewrite (allIn_weaken _ _ _ isDigit_hostByte A2). reflexivity. }
  set (X := pre ++ ":" ++ strconv.Itoa port) in *.
  change ("udp" ++ "://" ++ X) with ("udp://" ++ X).
  unfold ParseDnsServer.
  rewrite withScheme_prefixed, withScheme_absent
    by (rewrite (hostByte_no_scheme_mark _ Ca); lia).
  reflexivity.
Qed.

Lemma Addr_reparse_witness :
  ParseDnsServer (DnsServer.Addr (udp 1 1 1 1 5353)) = Ok (udp 1 1 1 1 5353).
Proof.
  apply (Addr_reparse "udp://1.1.1.1:5353"). vm_compute. reflexivity.
Defined.

(** X4.  Two parsed descriptors with the same canonical string are the
    same descriptor. *)
Theorem String_injective :
  forall v1 v2 s1 s2,
    ParseDnsServer v1 = Ok s1 -> ParseDnsServer v2 = Ok s2 ->
    DnsServer.String s1 = DnsServer.String s2 -> s1 = s2.
Proof.
  intros v1 v2 s1 s2 H1 H2 E.
  apply ParseDnsServer_ok in H1 as (N1 & I1 & P1).
  apply ParseDnsServer_ok in H2 as (N2 & I2 & P2).
  destruct s1 as [n1 ip1 p1], s2 as [n2 ip2 p2].
  cbn [DnsServer.Network DnsServer.IP DnsServer.Port] in *. subst n1 n2.
  pose proof (String_reparse ip1 p1 I1 P1) as R1.
  pose proof (String_reparse ip2 p2 I2 P2) as R2.
  rewrite E, R2 in R1. injection R1 as -> ->. reflexivity.
Qed.

Lemma String_injective_witness : udp 8 8 8 8 53 = udp 8 8 8 8 53.
Proof.
  apply (String_injective "8.8.8.8" "udp://8.8.8.8:53");
    vm_compute; reflexivity.
Defined.

(** ** The builders *)

Lemma parseServers_all (servers : list string) (ss : list DnsServer.t) :
  Forall2 (fun v s => ParseDnsServer v = Ok s) servers ss ->
  parseServers servers = Ok ss.
Proof.
  intros H. induction H as [|v s servers ss Hv _ IH]; [reflexivity|].
  cbn [parseServers]. rewrite Hv, IH. reflexivity.
Qed.

Lemma parseServers_first_error (good : list string) :
  forall ss v rest e,
    parseServers good = Ok ss -> ParseDnsServer v = Err e ->
    parseServers (good ++ v :: rest) = Err e.
Proof.
  induction good as [|g good IH]; intros ss v rest e Hg Hv.
  - cbn [app parseServers]. rewrite Hv. reflexivity.
  - cbn [app parseServers] in Hg |- *.
    destruct (ParseDnsServer g) as [s|e0]; [|discriminate].
    destruct (parseServers good) as [ss'|e0] eqn:E; [|discriminate].
    rewrite (IH ss' v rest e eq_refl Hv). reflexivity.
Qed.

(** X5.  [newGeneralHandle] builds a handler exactly over the parsed
    servers, in their order, when every server parses; when one does not,
    it returns a nil handler and the error of the first server that
    fails, whatever comes after it. *)
Theorem newGeneralHandle_all_or_first_error :
  forall (GeoLookUp : net.IP -> string) (selectIP : list net.IP -> net.IP)
         (next : Handle),
    (forall servers ss,
        Forall2 (fun v s => ParseDnsServer v = Ok s) servers ss ->
        newGeneralHandle GeoLookUp selectIP servers next
        = (Some (generalHandler GeoLookUp selectIP ss next), None))
    /\ (forall good ss v rest e,
           Forall2 (fun v s => ParseDnsServer v = Ok s) good ss ->
           ParseDnsServer v = Err e ->
           newGeneralHandle GeoLookUp selectIP (good ++ v :: rest) next
           = (None, Some e)).
Proof.
  intros GeoLookUp selectIP next. split.
  - intros servers ss H. unfold newGeneralHandle.
    rewrite (parseServers_all _ _ H). reflexivity.
  - intros good ss v rest e Hg Hv. unfold newGeneralHandle.
    rewrite (parseServers_first_error good ss v rest e
               (parseServers_all _ _ Hg) Hv).
    reflexivity.
Qed.

Lemma newGeneralHandle_all_or_first_error_witness :
  newGeneralHandle noGeo SelectIP ["8.8.8.8"; "tcp://1.1.1.1"; "bogus"] None
  = (None, Some (ErrNotSupport "tcp://1.1.1.1" "tcp")).
Proof.
  apply (proj2 (newGeneralHandle_all_or_first_error noGeo SelectIP None)
           ["8.8.8.8"] [udp 8 8 8 8 53] "tcp://1.1.1.1" ["bogus"]).
  - constructor; [vm_compute; reflexivity | constructor].
  - vm_compute. reflexivity.
Defined.

(** X6.  [newMappingHandle] never returns a handler together with an
    error, nor neither of them; and a rule with no server and no IP is
    refused with the error that names its pattern. *)
Theorem newMappingHandle_no_partial :
  forall (GeoLookUp : net.IP -> string) mappingDomain servers ips
         (next : Handle),
    newMappingHandle GeoLookUp mappingDomain [] [] next
    = (None, Some (ErrMappingEmpty mappingDomain [] []))
    /\ match newMappingHandle GeoLookUp mappingDomain servers ips next with
       | (Some _, None) | (None, Some _) => True
       | _ => False
       end.
Proof.
  intros GeoLookUp mappingDomain servers ips next. split; [reflexivity|].
  destruct (newMappingHandle_error_or_handle GeoLookUp mappingDomain
              servers ips next) as [[h ->]|[e ->]]; exact I.
Qed.

Lemma parseIPs_all (mappingDomain : string) (servers ips todo : list string) :
  Forall (fun v => net.ParseIP v <> []) todo ->
  parseIPs mappingDomain servers ips todo = Ok (map net.ParseIP todo).
Proof.
  intros H. induction H as [|v todo Hv _ IH]; [reflexivity|].
  cbn [parseIPs map]. rewrite IH.
  destruct (net.ParseIP v); [contradiction | reflexivity].
Qed.

Lemma parseIPs_first_error (mappingDomain : string) (servers ips : list string)
      (good : list string) (v : string) (rest : list string) :
  Forall (fun v => net.ParseIP v <> []) good -> net.ParseIP v = [] ->
  parseIPs mappingDomain servers ips (good ++ v :: rest)
  = Err (ErrMappingIP mappingDomain servers ips v).
Proof.
  intros Hg Hv. induction Hg as [|g good Hg0 _ IH].
  - cbn [app parseIPs]. rewrite Hv. reflexivity.
  - cbn [app parseIPs]. rewrite IH.
    destruct (net.ParseIP g); [contradiction | reflexivity].
Qed.

(** X7.  A rule that does not build returns the error of its first bad
    entry: a static rule names its pattern, its lists and the first IP
    literal that does not parse; a server-backed rule returns the error
    of the server parser for the first server that does not parse, which
    does not name the rule. *)
Theorem bad_rule_entry_aborts :
  forall (GeoLookUp : net.IP -> string) mappingDomain (next : Handle),
    (forall good v rest,
        Forall (fun x => net.ParseIP x <> []) good -> net.ParseIP v = [] ->
        newMappingHandle GeoLookUp mappingDomain [] (good ++ v :: rest) next
        = (None,
           Some (ErrMappingIP mappingDomain [] (good ++ v :: rest) v)))
    /\ (forall good ss v rest ips e,
           Forall2 (fun v s => ParseDnsServer v = Ok s) good ss ->
           ParseDnsServer v = Err e ->
           newMappingHandle GeoLookUp mappingDomain (good ++ v :: rest) ips
                            next
           = (None, Some e)).
Proof.
  intros GeoLookUp mappingDomain next. split.
  - intros good v rest Hg Hv. unfold newMappingHandle.
    assert (L : (List.length (good ++ v :: rest) =? 0)%nat = false)
      by (destruct good; reflexivity).
    rewrite L. cbn [List.length Nat.eqb Nat.ltb Nat.leb andb].
    rewrite (parseIPs_first_error _ _ _ good v rest Hg Hv). reflexivity.
  - intros good ss v rest ips e Hg Hv. unfold newMappingHandle.
    assert (L : (List.length (good ++ v :: rest) =? 0)%nat = false)
      by (destruct good; reflexivity).
    assert (L' : (0 <? List.length (good ++ v :: rest))%nat = true)
      by (destruct good; reflexivity).
    rewrite L, L'. cbn [andb].
    rewrite (parseServers_first_error good ss v rest e
               (parseServers_all _ _ Hg) Hv).
    reflexivity.
Qed.

Lemma bad_rule_entry_aborts_witness :
  newMappingHandle noGeo "example.com" [] ["10.0.0.1"; "10.0.0.256"; "x"]
                   None
  = (None,
     Some (ErrMappingIP "example.com" []
                        ["10.0.0.1"; "10.0.0.256"; "x"] "10.0.0.256")).
Proof.
  apply (proj1 (bad_rule_entry_aborts noGeo "example.com" None)
           ["10.0.0.1"] "10.0.0.256" ["x"]).
  - constructor; [vm_compute; discriminate | constructor].
  - vm_compute. reflexivity.
Defined.

(** X8.  A rule with no server and IP literals that all parse answers a
    matching query on the spot: no exchange is started, the next handler
    is not run, and the record holds the parsed literals in their order,
    the first of them selected, with its country. *)
Theorem static_rule_no_network :
  forall (GeoLookUp : net.IP -> string) mappingDomain i0 ips
         (next : Handle) ctx domain env,
    Forall (fun x => net.ParseIP x <> []) (i0 :: ips) ->
    matchRule mappingDomain domain = Some true ->
    exists h,
      newMappingHandle GeoLookUp mappingDomain [] (i0 :: ips) next
      = (Some h, None)
      /\ h ctx domain env
         = ([], Returned
                  (Some (DNS.mk TypStatic mappingDomain domain
                                (map net.ParseIP (i0 :: ips)) []
                                DnsServer.zero (net.ParseIP i0)
                                (GeoLookUp (net.ParseIP i0)) 0))).
Proof.
  intros GeoLookUp mappingDomain i0 ips next ctx domain env Hok Hm.
  unfold newMappingHandle.
  cbn [List.length Nat.eqb Nat.ltb Nat.leb andb].
  rewrite (parseIPs_all _ _ _ _ Hok). eexists. split; [reflexivity|].
  cbn [map]. apply static_rule_answers, Hm.
Qed.

Lemma static_rule_no_network_witness :
  exists h,
    newMappingHandle noGeo "*.lan" [] ["10.0.0.1"; "::1"] None
    = (Some h, None)
    /\ h neverDone "nas.lan" (unreachable [])
       = ([], Returned
                (Some (DNS.mk TypStatic "*.lan" "nas.lan"
                              (map net.ParseIP ["10.0.0.1"; "::1"]) []
                              DnsServer.zero (net.ParseIP "10.0.0.1")
                              (noGeo (net.ParseIP "10.0.0.1")) 0))).
Proof.
  apply (static_rule_no_network noGeo "*.lan" "10.0.0.1" ["::1"] None
           neverDone "nas.lan" (unreachable [])).
  - repeat constructor; vm_compute; discriminate.
  - vm_compute. reflexivity.
Defined.

(** ** The chain builder, for any number of rules *)

Section ChainExtras.

Variable GeoLookUp : net.IP -> string.
Variable newCacheHandle : Handle -> Handle * option error.
Variable selectIP : list net.IP -> net.IP.

Local Abbreviation build v h :=
  (newMappingHandle GeoLookUp (model.Domain v) (model.IP v) (model.Server v) h).

Lemma applyMappings_error_no_handle (rules : list model.MappingRule) :
  forall inner h e,
    applyMappings GeoLookUp rules inner = (h, Some e) -> h = None.
Proof.
  induction rules as [|v later IH]; intros inner h e; [discriminate|].
  cbn [applyMappings].
  destruct (applyMappings GeoLookUp later inner) as [hl [el|]] eqn:E.
  - intros [= <- _]. exact (IH inner hl el E).
  - destruct (newMappingHandle_error_or_handle GeoLookUp (model.Domain v)
                (model.IP v) (model.Server v) hl) as [[h' ->]|[e' ->]];
      [discriminate|]. intros [= <- _]. reflexivity.
Qed.

(** X9.  Whenever [ApplyConfig] reports an error, from the geolocation
    or from a mapping rule, the handler it returns is nil. *)
Theorem ApplyConfig_error_no_handle :
  forall InitGeoIP config (fallback : Handle) e,
    snd (ApplyConfig GeoLookUp InitGeoIP newCacheHandle selectIP config
                     fallback) = Some e ->
    fst (ApplyConfig GeoLookUp InitGeoIP newCacheHandle selectIP config
                     fallback) = None.
Proof.
  intros InitGeoIP config fallback e. unfold ApplyConfig.
  destruct InitGeoIP as [e0|]; [reflexivity|].
  destruct (applyMappings GeoLookUp _ _) as [h o] eqn:E. cbn [fst snd].
  intros ->. exact (applyMappings_error_no_handle _ _ _ _ E).
Qed.

(** Whether a rule builds does not depend on the handler it wraps. *)
Lemma rule_error_independent (v : model.MappingRule) (h1 h2 : Handle) :
  snd (build v h1) = snd (build v h2).
Proof.
  unfold newMappingHandle.
  destruct (_ && _); [reflexivity|].
  destruct (0 <? _)%nat.
  - destruct (parseServers (model.IP v)); reflexivity.
  - destruct (parseIPs _ _ _ _); reflexivity.
Qed.

Lemma applyMappings_good (rules : list model.MappingRule) :
  forall inner,
    Forall (fun v => snd (build v None) = None) rules ->
    snd (applyMappings GeoLookUp rules inner) = None.
Proof.
  induction rules as [|v later IH]; intros inner H; [reflexivity|].
  inversion H as [|? ? Hv Hl]; subst. cbn [applyMappings].
  specialize (IH inner Hl).
  destruct (applyMappings GeoLookUp later inner) as [hl o].
  cbn [snd] in IH. subst o.
  rewrite (rule_error_independent v hl None). exact Hv.
Qed.

(** X10.  When several rules are bad, [ApplyConfig] reports the last bad
    rule of the configuration: the rules are built from the end, so the
    error is that of the rule after which every rule builds, whatever the
    rules before it are. *)
Theorem ApplyConfig_reports_last_bad_rule :
  forall includeSystem servers before bad after (fallback : Handle) e,
    Forall (fun v => snd (build v None) = None) after ->
    snd (build bad None) = Some e ->
    ApplyConfig GeoLookUp None newCacheHandle selectIP
      (model.mkConfig
         (model.mkDNS includeSystem servers (before ++ bad :: after)))
      fallback
    = (None, Some e).
Proof.
  intros includeSystem servers before bad after fallback e Ha Hb.
  unfold ApplyConfig. cbn [model.Mapping model.DNS model.Servers].
  set (inner := fst (newCacheHandle _)). clearbody inner.
  assert (B : applyMappings GeoLookUp (bad :: after) inner = (None, Some e)).
  { cbn [applyMappings]. pose proof (applyMappings_good after inner Ha) as G.
    destruct (applyMappings GeoLookUp after inner) as [hl o].
    cbn [snd] in G. subst o.
    pose proof (rule_error_independent bad hl None) as R. rewrite Hb in R.
    destruct (build bad hl) as [h o] eqn:E. cbn [snd] in R. subst o.
    destruct (newMappingHandle_error_or_handle GeoLookUp (model.Domain bad)
                (model.IP bad) (model.Server bad) hl) as [[h' X]|[e' X]];
      rewrite X in E; [discriminate|]. injection E as <- <-. reflexivity. }
  induction before as [|b before IH]; [exact B|].
  cbn [app applyMappings]. rewrite IH. reflexivity.
Qed.

(** The runs of a chain of rules that all miss the queried domain. *)
Lemma applyMappings_all_miss (rules : list model.MappingRule) :
  forall inner hl ctx domain env,
    applyMappings GeoLookUp rules inner = (hl, None) ->
    Forall (fun v => matchRule (model.Domain v) domain = Some false) rules ->
    call hl ctx domain env = call inner ctx domain env.
Proof.
  induction rules as [|v later IH]; intros inner hl ctx domain env Hb Hm.
  - injection Hb as <-. reflexivity.
  - inversion Hm as [|? ? Hv Hl]; subst. cbn [applyMappings] in Hb.
    destruct (applyMappings GeoLookUp later inner) as [hl' [e|]] eqn:E;
      [discriminate|].
    destruct (newMappingHandle_error_or_handle GeoLookUp (model.Domain v)
                (model.IP v) (model.Server v) hl') as [[h X]|[e X]];
      rewrite X in Hb; [|discriminate].
    injection Hb as <-.
    rewrite <- (IH inner hl' ctx domain env E Hl).
    apply newMappingHandle_built in X
      as [(sa & _ & _ & ->)|(netIP & _ & _ & _ & ->)];
      cbn [call];
      [unfold serverMappingHandler | unfold staticMappingHandler];
      rewrite Hv; reflexivity.
Qed.

(** X11.  A query that every mapping rule misses gets the run of the
    cache layer built over the general resolver: the rules add nothing
    to it and take nothing from it. *)
Theorem unmatched_query_reaches_cache :
  forall InitGeoIP includeSystem servers rules (fallback : Handle) h
         ctx domain env,
    ApplyConfig GeoLookUp InitGeoIP newCacheHandle selectIP
      (model.mkConfig (model.mkDNS includeSystem servers rules)) fallback
    = (Some h, None) ->
    Forall (fun v => matchRule (model.Domain v) domain = Some false) rules ->
    h ctx domain env
    = call (fst (newCacheHandle
                   (fst (newGeneralHandle GeoLookUp selectIP servers
                                          fallback))))
           ctx domain env.
Proof.
  intros InitGeoIP includeSystem servers rules fallback h ctx domain env.
  unfold ApplyConfig. destruct InitGeoIP as [e|]; [discriminate|].
  cbn [model.Mapping model.DNS model.Servers]. intros Hb Hm.
  exact (applyMappings_all_miss rules _ (Some h) ctx domain env Hb Hm).
Qed.

(** The record of a rule that matches carries the rule's pattern. *)
Lemma built_rule_record :
  forall v hl h ctx domain env t p,
    build v hl = (Some h, None) ->
    matchRule (model.Domain v) domain = Some true ->
    h ctx domain env = (t, Returned p) ->
    exists r, p = Some r
              /\ DNS.MappingDomain r = model.Domain v
              /\ DNS.Typ r = TypStatic
              /\ DNS.Domain r = domain.
Proof.
  intros v hl h ctx domain env t p Hb Hm.
  apply newMappingHandle_built in Hb
    as [(sa & _ & _ & ->)|(netIP & _ & Hne & _ & ->)].
  - unfold serverMappingHandler, bind. rewrite Hm.
    destruct (ResolveDomain ctx domain sa env) as [tr [[[ips s] err]| |]];
      [|discriminate|discriminate].
    destruct err; cbn; intros [= _ <-]; eexists; repeat split.
  - destruct netIP as [|ip0 netIP]; [contradiction|].
    rewrite (static_rule_answers GeoLookUp _ _ _ _ _ _ _ Hm).
    intros [= _ <-]. eexists. repeat split.
Qed.

(** X12.  With any number of rules, the first rule in configuration
    order whose pattern matches the queried domain decides: every record
    the chain returns is the static record of that rule. *)
Theorem first_matching_rule_decides :
  forall InitGeoIP includeSystem servers before r after (fallback : Handle)
         h ctx domain env t p,
    ApplyConfig GeoLookUp InitGeoIP newCacheHandle selectIP
      (model.mkConfig
         (model.mkDNS includeSystem servers (before ++ r :: after)))
      fallback
    = (Some h, None) ->
    Forall (fun v => matchRule (model.Domain v) domain = Some false) before ->
    matchRule (model.Domain r) domain = Some true ->
    h ctx domain env = (t, Returned p) ->
    exists rec, p = Some rec
                /\ DNS.MappingDomain rec = model.Domain r
                /\ DNS.Typ rec = TypStatic
                /\ DNS.Domain rec = domain.
Proof.
  intros InitGeoIP includeSystem servers before r after fallback h ctx
         domain env t p.
  unfold ApplyConfig. destruct InitGeoIP as [e|]; [discriminate|].
  cbn [model.Mapping model.DNS model.Servers].
  set (inner := fst (newCacheHandle _)). clearbody inner.
  revert h. induction before as [|b before IH]; intros h Hb Hmiss Hm Hrun.
  - cbn [app] in Hb. apply applyMappings_cons in Hb as (hl & _ & Hh).
    exact (built_rule_record r hl h ctx domain env t p Hh Hm Hrun).
  - inversion Hmiss as [|? ? Hb0 Hrest]; subst.
    cbn [app] in Hb. apply applyMappings_cons in Hb as (hl & Hl & Hh).
    destruct hl as [h'|].
    + apply (IH h' Hl Hrest Hm).
      rewrite <- Hrun. symmetry.
      apply newMappingHandle_built in Hh
        as [(sa & _ & _ & ->)|(netIP & _ & _ & _ & ->)];
        [unfold serverMappingHandler | unfold staticMappingHandler];
        rewrite Hb0; reflexivity.
    + exfalso. clear - Hl.
      destruct before as [|b' before]; cbn [app applyMappings] in Hl.
      * destruct (applyMappings GeoLookUp after inner) as [x [e|]];
          [discriminate|].
        destruct (newMappingHandle_error_or_handle GeoLookUp (model.Domain r)
                    (model.IP r) (model.Server r) x) as [[h X]|[e X]];
          rewrite X in Hl; discriminate.
      * destruct (applyMappings GeoLookUp (before ++ r :: after) inner)
          as [x [e|]]; [discriminate|].
        destruct (newMappingHandle_error_or_handle GeoLookUp
                    (model.Domain b') (model.IP b') (model.Server b') x)
          as [[h X]|[e X]]; rewrite X in Hl; discriminate.
Qed.

End ChainExtras.

Definition badRule : model.MappingRule :=
  model.mkRule "bad.example" ["tcp://1.1.1.1"] [].
Definition emptyRule : model.MappingRule := model.mkRule "e.example" [] [].

Lemma ApplyConfig_error_no_handle_witness :
  fst (ApplyConfig noGeo None emptyCache SelectIP
         (model.mkConfig (model.mkDNS false [] [ruleA; emptyRule]))
         (Some systemFallback))
  = None.
Proof.
  apply (ApplyConfig_error_no_handle noGeo emptyCache SelectIP None
           (model.mkConfig (model.mkDNS false [] [ruleA; emptyRule]))
           (Some systemFallback) (ErrMappingEmpty "e.example" [] [])).
  vm_compute. reflexivity.
Defined.

Lemma ApplyConfig_reports_last_bad_rule_witness :
  ApplyConfig noGeo None emptyCache SelectIP
    (model.mkConfig
       (model.mkDNS false [] ([emptyRule] ++ badRule :: [ruleA])))
    (Some systemFallback)
  = (None, Some (ErrNotSupport "tcp://1.1.1.1" "tcp")).
Proof.
  apply (ApplyConfig_reports_last_bad_rule noGeo emptyCache SelectIP false []
           [emptyRule] badRule [ruleA] (Some systemFallback)).
  - constructor; [vm_compute; reflexivity | constructor].
  - vm_compute. reflexivity.
Defined.

Lemma unmatched_query_reaches_cache_witness :
  headAB neverDone "other.org" (unreachable [])
  = call (fst (emptyCache
                 (fst (newGeneralHandle noGeo SelectIP ["8.8.8.8"]
                                        (Some systemFallback)))))
         neverDone "other.org" (unreachable []).
Proof.
  apply (unmatched_query_reaches_cache noGeo emptyCache SelectIP None false
           ["8.8.8.8"] [ruleA; ruleB] (Some systemFallback) headAB).
  - exact chainAB_built.
  - repeat constructor; vm_compute; reflexivity.
Defined.

Lemma first_matching_rule_decides_witness :
  exists rec,
    Some (DNS.mk TypStatic "a.example.com" "a.example.com"
                 [ip4 10 0 0 2] [] DnsServer.zero (ip4 10 0 0 2) "" 0)
    = Some rec
    /\ DNS.MappingDomain rec = model.Domain ruleB
    /\ DNS.Typ rec = TypStatic
    /\ DNS.Domain rec = "a.example.com".
Proof.
  apply (first_matching_rule_decides noGeo emptyCache SelectIP None false
           ["8.8.8.8"]
           [model.mkRule "*.example.org" [] ["10.0.0.1"]] ruleB []
           (Some systemFallback)
           (staticMappingHandler noGeo "*.example.org" [ip4 10 0 0 1]
              (Some (staticMappingHandler noGeo "a.example.com"
                       [ip4 10 0 0 2] generalAB)))
           neverDone "a.example.com" (unreachable []) []).
  - unfold ApplyConfig, ruleB.
    cbn [model.Mapping model.DNS model.Servers applyMappings app
         model.Domain model.IP model.Server].
    fold generalAB. unfold newMappingHandle.
    cbn [List.length Nat.eqb Nat.ltb Nat.leb andb].
    rewrite (parseIPs_one _ _ _ "10.0.0.2" (ip4 10 0 0 2))
      by (vm_compute; (reflexivity || discriminate)).
    cbn [List.length Nat.eqb Nat.ltb Nat.leb andb].
    rewrite (parseIPs_one _ _ _ "10.0.0.1" (ip4 10 0 0 1))
      by (vm_compute; (reflexivity || discriminate)).
    reflexivity.
  - repeat constructor.
  - vm_compute. reflexivity.
  - vm_compute. reflexivity.
Defined.

(** ** The race and the handlers *)

(** X13.  The addresses of an answer are those of its A records, in
    their order; records of any other type contribute nothing. *)
Theorem answerIPs_only_A :
  (forall answer ip, In ip (answerIPs answer) <-> In (miekg.A ip) answer)
  /\ (forall a b, answerIPs (a ++ b)%list
                  = (answerIPs a ++ answerIPs b)%list)
  /\ (forall ips, answerIPs (map miekg.A ips) = ips).
Proof.
  split; [|split].
  - intros answer ip. induction answer as [|rr answer IH]; [reflexivity|].
    destruct rr as [a|ty]; cbn [answerIPs In]; rewrite IH; split.
    + intros [->|H]; auto.
    + intros [[= ->]|H]; auto.
    + auto.
    + intros [H|H]; [discriminate | exact H].
  - intros a b. induction a as [|rr a IH]; [reflexivity|].
    destruct rr; cbn [app answerIPs]; rewrite IH; reflexivity.
  - intros ips. induction ips as [|ip ips IH]; [reflexivity|].
    cbn [map answerIPs]. rewrite IH. reflexivity.
Qed.

Lemma firstArrival_bound (n : nat) (order : list nat) (i : nat) :
  firstArrival n order = Some i -> (i < n)%nat.
Proof.
  unfold firstArrival. intros H. apply find_some in H as [_ H].
  apply Nat.ltb_lt, H.
Qed.

(** X14.  When [ResolveDomain] returns without error, the server it
    names is one of the servers it was given, the addresses are the A
    records of that server's own reply and of no other, and one exchange
    was started for every server. *)
Theorem race_returns_one_reply :
  forall ctx domain servers env t ips server,
    ResolveDomain ctx domain servers env = (t, Returned (ips, server, None)) ->
    In server servers
    /\ (exists m,
           miekg.r (Exchange env (DnsServer.Addr server) domain) = Some m
           /\ ips = answerIPs (miekg.Answer m))
    /\ t = map (fun s => EvExchange (DnsServer.Addr s) domain) servers.
Proof.
  intros [d] domain servers env t ips server. unfold ResolveDomain.
  cbn [doneAfter]. intros H. injection H as Ht Ho. subst t.
  assert (W : forall i,
             firstArrival (List.length servers) (arrival env) = Some i ->
             match nth_error servers i with
             | Some s =>
                 match attempt env domain s with
                 | Sends ips0 server0 => Returned (ips0, server0, None)
                 | Panics why => Panicked why
                 end
             | None => Blocked
             end = Returned (ips, server, @None error) ->
             In server servers
             /\ (exists m,
                    miekg.r (Exchange env (DnsServer.Addr server) domain)
                    = Some m
                    /\ ips = answerIPs (miekg.Answer m))).
  { intros i _ E. destruct (nth_error servers i) as [s|] eqn:En;
      [|discriminate].
    unfold attempt in E.
    destruct (miekg.r (Exchange env (DnsServer.Addr s) domain)) as [m|] eqn:Em;
      [|discriminate].
    injection E as <- <-. split; [exact (nth_error_In _ _ En)|].
    exists m. split; [exact Em | reflexivity]. }
  split; [|split; [|reflexivity]];
    destruct d as [[|k]|];
    destruct (firstArrival (List.length servers) (arrival env)) as [i|] eqn:Ef;
    try discriminate; apply (W i eq_refl Ho).
Qed.

Lemma race_returns_one_reply_witness :
  In (udp 8 8 4 4 53) [udp 8 8 8 8 53; udp 8 8 4 4 53]
  /\ (exists m,
         miekg.r (Exchange (answering [miekg.A [1; 2; 3; 4]] [1%nat; O])
                           (DnsServer.Addr (udp 8 8 4 4 53)) "example.com")
         = Some m
         /\ [[1; 2; 3; 4]] = answerIPs (miekg.Answer m))
  /\ [EvExchange "8.8.8.8:53" "example.com";
      EvExchange "8.8.4.4:53" "example.com"]
     = map (fun s => EvExchange (DnsServer.Addr s) "example.com")
           [udp 8 8 8 8 53; udp 8 8 4 4 53].
Proof.
  apply (race_returns_one_reply neverDone "example.com"
           [udp 8 8 8 8 53; udp 8 8 4 4 53]
           (answering [miekg.A [1; 2; 3; 4]] [1%nat; O])).
  vm_compute. reflexivity.
Defined.

(** X15.  The test of a mapping rule on a pattern that is not empty
    never panics; a pattern that begins with '*' matches exactly the
    domains that end with the rest of the pattern, and any other pattern
    matches exactly itself, byte for byte. *)
Theorem matchRule_nonempty :
  forall (c : ascii) (tail domain : string),
    matchRule (String c tail) domain <> None
    /\ (c = "*"%char ->
        (matchRule (String c tail) domain = Some true
         <-> endsWith domain tail))
    /\ (c <> "*"%char ->
        (matchRule (String c tail) domain = Some true
         <-> domain = String c tail)).
Proof.
  intros c tail domain. split; [discriminate|]. split.
  - intros ->. destruct (matchRule_wildcard tail domain) as (b & E & Hb).
    rewrite E. rewrite <- Hb. split; congruence.
  - intros Hc. destruct (matchRule_exact c tail domain Hc) as (b & E & Hb).
    rewrite E. rewrite <- Hb. split; congruence.
Qed.

Lemma matchRule_nonempty_witness :
  matchRule "*.example.com" "a.example.com" = Some true
  <-> endsWith "a.example.com" ".example.com".
Proof.
  apply (proj1 (proj2 (matchRule_nonempty "*" ".example.com"
                                          "a.example.com"))).
  reflexivity.
Defined.

Section HandlerExtras.

Variable GeoLookUp : net.IP -> string.

(** X16.  A rule that builds, with a pattern that is not empty, has a
    handler of two behaviours only: on a miss its run is the run of the
    next handler, unchanged; on a match its run is the same whatever the
    next handler is, so nothing after the rule is consulted. *)
Theorem built_rule_dichotomy :
  forall mappingDomain servers ips (next : HandleFn) h ctx domain env,
    newMappingHandle GeoLookUp mappingDomain servers ips (Some next)
    = (Some h, None) ->
    mappingDomain <> "" ->
    (matchRule mappingDomain domain = Some false
     /\ h ctx domain env = next ctx domain env)
    \/ (matchRule mappingDomain domain = Some true
        /\ forall (next' : Handle) h',
            newMappingHandle GeoLookUp mappingDomain servers ips next'
            = (Some h', None) ->
            h' ctx domain env = h ctx domain env).
Proof.
  intros mappingDomain servers ips next h ctx domain env Hb Hne.
  destruct (matchRule mappingDomain domain) as [[|]|] eqn:Em.
  - right. split; [reflexivity|]. intros next' h' Hb'.
    apply newMappingHandle_built in Hb
      as [(sa & Hs & Hp & ->)|(netIP & Hs & _ & Hp & ->)];
      apply newMappingHandle_built in Hb'
        as [(sa' & Hs' & Hp' & ->)|(netIP' & Hs' & _ & Hp' & ->)];
      try contradiction.
    + rewrite Hp in Hp'. injection Hp' as <-.
      unfold serverMappingHandler. rewrite Em. reflexivity.
    + rewrite Hp in Hp'. injection Hp' as <-.
      unfold staticMappingHandler. rewrite Em. reflexivity.
  - left. split; [reflexivity|].
    apply newMappingHandle_built in Hb
      as [(sa & _ & _ & ->)|(netIP & _ & _ & _ & ->)];
      [unfold serverMappingHandler | unfold staticMappingHandler];
      rewrite Em; reflexivity.
  - destruct mappingDomain; [contradiction | discriminate].
Qed.

(** X17.  The record of a server-backed rule never carries a selected
    address or a country, even when the winning server returned
    addresses: it is static, names the pattern, the queried domain and
    the rule's servers, and leaves [CurrentIP] and [CurrentCountry]
    unset.  The handler never returns a nil record. *)
Theorem server_rule_selects_nothing :
  forall mappingDomain serverAddrs (next : Handle) ctx domain env t p,
    matchRule mappingDomain domain = Some true ->
    serverMappingHandler mappingDomain serverAddrs next ctx domain env
    = (t, Returned p) ->
    exists r,
      p = Some r
      /\ DNS.Typ r = TypStatic
      /\ DNS.MappingDomain r = mappingDomain
      /\ DNS.Domain r = domain
      /\ DNS.Server r = serverAddrs
      /\ DNS.CurrentIP r = []
      /\ DNS.CurrentCountry r = "".
Proof.
  intros mappingDomain serverAddrs next ctx domain env t p Hm.
  unfold serverMappingHandler, bind. rewrite Hm.
  destruct (ResolveDomain ctx domain serverAddrs env)
    as [tr [[[ips s] err]| |]]; [|discriminate|discriminate].
  destruct err; cbn; intros [= _ <-]; eexists; repeat split.
Qed.

(** X18.  When the race of the general resolver returns an answer, the
    handler returns a dynamic record with the queried domain, the
    addresses and the winning server, selects the first address by the
    default policy (one of the record's addresses whenever there is
    one), and does not run the next handler: a nil next handler does no
    harm on this path. *)
Theorem general_success :
  forall servers (next : Handle) ctx domain env serverAddrs tr ips server,
    parseServers servers = Ok serverAddrs ->
    ResolveDomain ctx domain serverAddrs env
    = (tr, Returned (ips, server, None)) ->
    exists h,
      newGeneralHandle GeoLookUp SelectIP servers next = (Some h, None)
      /\ h ctx domain env
         = (tr, Returned
                  (Some (DNS.mk TypDynamic "" domain ips [] server
                                (SelectIP ips) (GeoLookUp (SelectIP ips))
                                0)))
      /\ (ips <> [] -> In (SelectIP ips) ips)
      /\ (ips = [] -> SelectIP ips = []).
Proof.
  intros servers next ctx domain env serverAddrs tr ips server Hp Hr.
  unfold newGeneralHandle. rewrite Hp. eexists. split; [reflexivity|].
  split; [|split].
  - unfold generalHandler, bind. rewrite Hr. cbn. rewrite app_nil_r.
    reflexivity.
  - destruct ips as [|ip ips]; [contradiction|]. intros _. left. reflexivity.
  - intros ->. reflexivity.
Qed.

(** X19.  Whatever the race and the next handler do, a record the
    general resolver returns is its own: never nil, dynamic, without a
    pattern, and carrying the queried domain, so that [IsNil] holds of it
    exactly when the queried domain is empty. *)
Theorem general_record_is_own :
  forall (selectIP : list net.IP -> net.IP) serverAddrs (next : Handle)
         ctx domain env t p,
    generalHandler GeoLookUp selectIP serverAddrs next ctx domain env
    = (t, Returned p) ->
    exists r,
      p = Some r
      /\ DNS.Typ r = TypDynamic
      /\ DNS.MappingDomain r = ""
      /\ DNS.Domain r = domain
      /\ DNS.IsNil r = (String.length domain =? 0)%nat.
Proof.
  intros selectIP serverAddrs next ctx domain env t p.
  unfold generalHandler, bind.
  destruct (ResolveDomain ctx domain serverAddrs env)
    as [tr [[[ips s] err]| |]]; [|discriminate|discriminate].
  destruct err as [e|].
  - cbn [emit]. destruct (call next ctx domain env) as [tn [o| |]];
      cbn; try discriminate.
    intros [= _ <-]. eexists. repeat split.
  - cbn. intros [= _ <-]. eexists. repeat split.
Qed.

End HandlerExtras.

Lemma built_rule_dichotomy_witness :
  (matchRule "*.lan" "nas.lan" = Some false
   /\ staticMappingHandler noGeo "*.lan" [ip4 10 0 0 1]
        (Some systemFallback) neverDone "nas.lan" (unreachable [])
      = systemFallback neverDone "nas.lan" (unreachable []))
  \/ (matchRule "*.lan" "nas.lan" = Some true
      /\ forall (next' : Handle) h',
          newMappingHandle noGeo "*.lan" [] ["10.0.0.1"] next'
          = (Some h', None) ->
          h' neverDone "nas.lan" (unreachable [])
          = staticMappingHandler noGeo "*.lan" [ip4 10 0 0 1]
              (Some systemFallback) neverDone "nas.lan" (unreachable [])).
Proof.
  apply (built_rule_dichotomy noGeo "*.lan" [] ["10.0.0.1"] systemFallback).
  - unfold newMappingHandle.
    cbn [List.length Nat.eqb Nat.ltb Nat.leb andb].
    rewrite (parseIPs_one _ _ _ "10.0.0.1" (ip4 10 0 0 1))
      by (vm_compute; (reflexivity || discriminate)).
    reflexivity.
  - discriminate.
Defined.

Lemma server_rule_selects_nothing_witness :
  exists r,
    Some (mappedBy "example.com" "example.com" [udp 1 1 1 1 53]
                   [[1; 2; 3; 4]] (udp 1 1 1 1 53))
    = Some r
    /\ DNS.Typ r = TypStatic
    /\ DNS.MappingDomain r = "example.com"
    /\ DNS.Domain r = "example.com"
    /\ DNS.Server r = [udp 1 1 1 1 53]
    /\ DNS.CurrentIP r = []
    /\ DNS.CurrentCountry r = "".
Proof.
  apply (server_rule_selects_nothing "example.com" [udp 1 1 1 1 53] None
           neverDone "example.com"
           (answering [miekg.A [1; 2; 3; 4]] [O])
           [EvExchange "1.1.1.1:53" "example.com"]).
  - vm_compute. reflexivity.
  - vm_compute. reflexivity.
Defined.

Lemma general_success_witness :
  exists h,
    newGeneralHandle noGeo SelectIP ["8.8.8.8"] None = (Some h, None)
    /\ h neverDone "example.com"
         (answering [miekg.A [1; 2; 3; 4]; miekg.Other 5;
                     miekg.A [5; 6; 7; 8]] [O])
       = ([EvExchange "8.8.8.8:53" "example.com"],
          Returned
            (Some (DNS.mk TypDynamic "" "example.com"
                          [[1; 2; 3; 4]; [5; 6; 7; 8]] [] (udp 8 8 8 8 53)
                          (SelectIP [[1; 2; 3; 4]; [5; 6; 7; 8]])
                          (noGeo (SelectIP [[1; 2; 3; 4]; [5; 6; 7; 8]]))
                          0)))
    /\ ([[1; 2; 3; 4]; [5; 6; 7; 8]] <> [] ->
        In (SelectIP [[1; 2; 3; 4]; [5; 6; 7; 8]])
           [[1; 2; 3; 4]; [5; 6; 7; 8]])
    /\ ([[1; 2; 3; 4]; [5; 6; 7; 8]] = [] ->
        SelectIP [[1; 2; 3; 4]; [5; 6; 7; 8]] = []).
Proof.
  apply (general_success noGeo ["8.8.8.8"] None neverDone "example.com"
           (answering [miekg.A [1; 2; 3; 4]; miekg.Other 5;
                       miekg.A [5; 6; 7; 8]] [O])
           [udp 8 8 8 8 53] [EvExchange "8.8.8.8:53" "example.com"]).
  - vm_compute. reflexivity.
  - vm_compute. reflexivity.
Defined.

Lemma general_record_is_own_witness :
  exists r,
    Some (failedDynamic noGeo SelectIP "") = Some r
    /\ DNS.Typ r = TypDynamic
    /\ DNS.MappingDomain r = ""
    /\ DNS.Domain r = ""
    /\ DNS.IsNil r = (String.length "" =? 0)%nat.
Proof.
  apply (general_record_is_own noGeo SelectIP [udp 8 8 8 8 53]
           (Some systemFallback) doneFirst "" (unreachable [])
           [EvExchange "8.8.8.8:53" ""; EvLog "lookup ip failed" "";
            EvForeign "system lookup"]).
  vm_compute. reflexivity.
Defined.

(** X20.  The only error [ResolveDomain] returns is the cancellation of
    the caller's scope, with no address and the zero server; it is
    returned only for a scope that is cancelled.  A failed exchange is
    never reported as an error. *)
Theorem race_error_is_cancellation :
  forall ctx domain servers env t ips server e,
    ResolveDomain ctx domain servers env
    = (t, Returned (ips, server, Some e)) ->
    e = ErrCanceled /\ ips = [] /\ server = DnsServer.zero
    /\ doneAfter ctx <> None.
Proof.
  intros ctx domain servers env t ips server e H.
  destruct (ResolveDomain_error _ _ _ _ _ _ _ _ H) as (-> & -> & -> & _).
  repeat split. intros D. destruct ctx as [d]. cbn [doneAfter] in D.
  subst d. unfold ResolveDomain in H. cbn [doneAfter] in H.
  injection H as _ H.
  destruct (firstArrival (List.length servers) (arrival env)) as [i|];
    [|discriminate].
  destruct (nth_error servers i) as [s|]; [|discriminate].
  destruct (attempt env domain s); discriminate.
Qed.

Lemma race_error_is_cancellation_witness :
  ErrCanceled = ErrCanceled /\ @nil net.IP = [] /\ DnsServer.zero = DnsServer.zero
  /\ doneAfter doneFirst <> None.
Proof.
  apply (race_error_is_cancellation doneFirst "example.com"
           [udp 8 8 8 8 53] (unreachable [O])
           [EvExchange "8.8.8.8:53" "example.com"]).
  vm_compute. reflexivity.
Defined.

(** X21.  The first attempt to finish decides the race, as long as the
    scope was not cancelled before it: when its exchange produced a
    message, the result is that message's A records and that server,
    without error, whether or not the exchange also reported an error,
    and the replies of the other servers are not looked at. *)
Theorem race_first_arrival_wins :
  forall ctx domain servers env i s m,
    doneAfter ctx <> Some O ->
    firstArrival (List.length servers) (arrival env) = Some i ->
    nth_error servers i = Some s ->
    miekg.r (Exchange env (DnsServer.Addr s) domain) = Some m ->
    ResolveDomain ctx domain servers env
    = (map (fun x => EvExchange (DnsServer.Addr x) domain) servers,
       Returned (answerIPs (miekg.Answer m), s, None)).
Proof.
  intros [d] domain servers env i s m Hd Hf Hn Hm.
  unfold ResolveDomain. cbn [doneAfter] in *. rewrite Hf, Hn.
  unfold attempt. rewrite Hm.
  destruct d as [[|k]|]; [contradiction | reflexivity | reflexivity].
Qed.

(** A server whose reply carries an address and a wrong id. *)
Definition mismatched : Env :=
  mkEnv (fun _ _ =>
           miekg.mkReply (Some (miekg.mkMsg [miekg.A [9; 9; 9; 9]]))
                         (Some "dns: id mismatch"))
        [1%nat; O].

Lemma race_first_arrival_wins_witness :
  ResolveDomain neverDone "example.com" [udp 8 8 8 8 53; udp 8 8 4 4 53]
                mismatched
  = ([EvExchange "8.8.8.8:53" "example.com";
      EvExchange "8.8.4.4:53" "example.com"],
     Returned ([[9; 9; 9; 9]], udp 8 8 4 4 53, None)).
Proof.
  apply (race_first_arrival_wins neverDone "example.com"
           [udp 8 8 8 8 53; udp 8 8 4 4 53] mismatched 1%nat
           (udp 8 8 4 4 53) (miekg.mkMsg [miekg.A [9; 9; 9; 9]])).
  - discriminate.
  - reflexivity.
  - reflexivity.
  - reflexivity.
Defined.
